(** * Versioned document store of AI-PCKH: a shallow embedding of [MemStorage]

    Source: server/storage.ts ([MemStorage]) and shared/schema.ts.

    Modelling choices:
    - identifiers produced by [randomUUID()] are modelled by a counter held in
      the store ([next_uuid]); each call returns a value never returned
      before, which is how the code relies on UUIDs;
    - [new Date()] reads the store's clock ([clock], milliseconds, i.e. the
      value of [getTime()]); the environment advances the clock between
      operations ([tick]);
    - a JS [Map] is an association list in insertion order: [set] on an
      existing key replaces the entry in place, on a new key appends;
      [delete] removes the key; [values()] enumerates in insertion order;
    - [Array.prototype.sort] is stable (ECMAScript 2019); it is modelled by a
      stable insertion sort, whose output is the unique stable ordering;
    - a key that may be omitted from an object ([Partial<...>], optional
      zod fields) is an [option]; a nullable column is an [option] too, so an
      optional nullable field is [option (option _)] (outer [None]: key
      omitted; [Some None]: explicit [null]);
    - strings are Stdlib strings; [toLowerCase] maps ASCII [A-Z] to [a-z]. *)

From Stdlib Require Import String Ascii List Bool Arith ZArith Lia Sorting.Permutation Sorting.Sorted.
Import ListNotations.
Open Scope string_scope.

Definition uuid := nat.
Definition Date := Z.

(** ** Rows of shared/schema.ts *)

Record User := mkUser {
  user_id : uuid;
  user_email : string;
  user_password : string;
  user_name : string;
  user_role : string;
  user_createdAt : Date;
  user_updatedAt : Date }.

Record Document := mkDocument {
  doc_id : uuid;
  doc_title : string;
  doc_content : string;
  doc_summary : option string;
  doc_tags : option (list string);
  doc_createdBy : uuid;
  doc_createdAt : Date;
  doc_updatedAt : Date;
  doc_version : nat }.

Record DocumentVersion := mkDocumentVersion {
  ver_id : uuid;
  ver_documentId : uuid;
  ver_title : string;
  ver_content : string;
  ver_summary : option string;
  ver_tags : option (list string);
  ver_version : nat;
  ver_createdBy : uuid;
  ver_createdAt : Date;
  ver_changeDescription : option string }.

Record Activity := mkActivity {
  act_id : uuid;
  act_type : string;
  act_documentId : option uuid;
  act_userId : uuid;
  act_description : string;
  act_createdAt : Date }.

(** [InsertUser]: [users] without id and timestamps; [role] has a default. *)
Record InsertUser := mkInsertUser {
  iu_email : string;
  iu_password : string;
  iu_name : string;
  iu_role : option string }.

(** [InsertDocument]: title and content required, summary and tags optional
    and nullable. *)
Record InsertDocument := mkInsertDocument {
  id_title : string;
  id_content : string;
  id_summary : option (option string);
  id_tags : option (option (list string)) }.

(** [Partial<InsertDocument>] as returned by [insertDocumentSchema.partial()
    .parse]: every key may be omitted, unknown keys are stripped. *)
Record PartialInsertDocument := mkPartialInsertDocument {
  pd_title : option string;
  pd_content : option string;
  pd_summary : option (option string);
  pd_tags : option (option (list string)) }.

Record InsertDocumentVersion := mkInsertDocumentVersion {
  iv_documentId : uuid;
  iv_title : string;
  iv_content : string;
  iv_summary : option (option string);
  iv_tags : option (option (list string));
  iv_version : nat;
  iv_createdBy : uuid;
  iv_changeDescription : option (option string) }.

Record InsertActivity := mkInsertActivity {
  ia_type : string;
  ia_documentId : option (option uuid);
  ia_userId : uuid;
  ia_description : string }.

(** [DocumentWithUser = Document & { createdBy: User }]. *)
Record DocumentWithUser := mkDocumentWithUser {
  dw_id : uuid;
  dw_title : string;
  dw_content : string;
  dw_summary : option string;
  dw_tags : option (list string);
  dw_createdBy : User;
  dw_createdAt : Date;
  dw_updatedAt : Date;
  dw_version : nat }.

(** [DocumentWithDetails = Document & { createdBy: User; versions?: ... }]. *)
Record DocumentWithDetails := mkDocumentWithDetails {
  dd_doc : DocumentWithUser;
  dd_versions : list DocumentVersion }.

(** [Activity & { user: User; document?: Document }]. *)
Record ActivityWithUser := mkActivityWithUser {
  aw_id : uuid;
  aw_type : string;
  aw_documentId : option uuid;
  aw_userId : uuid;
  aw_description : string;
  aw_createdAt : Date;
  aw_user : User;
  aw_document : option Document }.

(** ** JS [Map] with insertion order *)

Module JSMap.
Section M.
Context {V : Type}.

Fixpoint get (m : list (uuid * V)) (k : uuid) : option V :=
  match m with
  | [] => None
  | (k', v) :: t => if Nat.eqb k' k then Some v else get t k
  end.

Fixpoint set (m : list (uuid * V)) (k : uuid) (v : V) : list (uuid * V) :=
  match m with
  | [] => [(k, v)]
  | (k', v') :: t => if Nat.eqb k' k then (k, v) :: t else (k', v') :: set t k v
  end.

Definition delete (m : list (uuid * V)) (k : uuid) : list (uuid * V) :=
  filter (fun p => negb (Nat.eqb (fst p) k)) m.

Definition values (m : list (uuid * V)) : list V := map snd m.

Definition keys (m : list (uuid * V)) : list uuid := map fst m.

End M.
End JSMap.

(** ** The store and its monad *)

Record Store := mkStore {
  users : list (uuid * User);
  documents : list (uuid * Document);
  documentVersions : list (uuid * DocumentVersion);
  activities : list (uuid * Activity);
  next_uuid : nat;
  clock : Date }.

(** [new MemStorage()]: four empty maps. *)
Definition init (t0 : Date) : Store := mkStore [] [] [] [] 0 t0.

Definition M (A : Type) := Store -> A * Store.
Definition ret {A} (a : A) : M A := fun s => (a, s).
Definition bind {A B} (m : M A) (f : A -> M B) : M B :=
  fun s => let (a, s') := m s in f a s'.
Notation "x <- m ;; k" := (bind m (fun x => k))
  (at level 61, m at next level, right associativity).
Notation "m ;;; k" := (bind m (fun _ => k)) (at level 61, right associativity).

Definition gets {A} (f : Store -> A) : M A := fun s => (f s, s).
Definition modify (f : Store -> Store) : M unit := fun s => (tt, f s).

Definition randomUUID : M uuid :=
  fun s => (next_uuid s,
            mkStore (users s) (documents s) (documentVersions s) (activities s)
                    (S (next_uuid s)) (clock s)).
Definition new_Date : M Date := gets clock.

Definition set_users (s : Store) u :=
  mkStore u (documents s) (documentVersions s) (activities s) (next_uuid s) (clock s).
Definition set_documents (s : Store) d :=
  mkStore (users s) d (documentVersions s) (activities s) (next_uuid s) (clock s).
Definition set_documentVersions (s : Store) v :=
  mkStore (users s) (documents s) v (activities s) (next_uuid s) (clock s).
Definition set_activities (s : Store) a :=
  mkStore (users s) (documents s) (documentVersions s) a (next_uuid s) (clock s).

(** The environment lets time pass between operations. *)
Definition tick (dt : nat) (s : Store) : Store :=
  mkStore (users s) (documents s) (documentVersions s) (activities s) (next_uuid s)
          (clock s + Z.of_nat dt)%Z.

(** ** JS helpers *)

(** [x || null] on a string that may be omitted or null: the empty string
    is falsy. *)
Definition or_null_string (x : option (option string)) : option string :=
  match x with
  | Some (Some v) => if String.eqb v EmptyString then None else Some v
  | _ => None
  end.

(** [x || []] on an array that may be omitted or null: arrays are truthy. *)
Definition or_empty_tags (x : option (option (list string))) : option (list string) :=
  match x with
  | Some (Some l) => Some l
  | _ => Some []
  end.

(** [x || null] on a document id (UUID strings are never empty). *)
Definition or_null_id (x : option (option uuid)) : option uuid :=
  match x with
  | Some (Some v) => Some v
  | _ => None
  end.

(** Stable sort, descending by a numeric key: the comparator
    [(a, b) => key b - key a]. *)
Section SortDesc.
Context {A : Type} (key : A -> Z).

Fixpoint insert_desc (x : A) (l : list A) : list A :=
  match l with
  | [] => [x]
  | y :: t => if (key x <=? key y)%Z then y :: insert_desc x t else x :: y :: t
  end.

Definition sort_desc (l : list A) : list A :=
  fold_left (fun acc x => insert_desc x acc) l [].

End SortDesc.

(** [Array.prototype.slice(0, end)]: a negative end counts from the end. *)
Definition slice0 {A} (l : list A) (e : Z) : list A :=
  if (e <? 0)%Z then firstn (Z.to_nat (Z.of_nat (length l) + e)) l
  else firstn (Z.to_nat e) l.

(** [String.prototype.toLowerCase] on ASCII: [A-Z] to [a-z]. *)
Definition lower_ascii (c : ascii) : ascii :=
  let n := nat_of_ascii c in
  if ((65 <=? n) && (n <=? 90))%nat then ascii_of_nat (n + 32) else c.

Fixpoint toLowerCase (s : string) : string :=
  match s with
  | EmptyString => EmptyString
  | String c t => String (lower_ascii c) (toLowerCase t)
  end.

(** [s.includes(q)]: [q] occurs in [s] at some position. *)
Fixpoint includes (s q : string) : bool :=
  if String.prefix q s then true
  else match s with
       | EmptyString => false
       | String _ t => includes t q
       end.

(** JS truthiness of a string. *)
Definition truthy_string (s : string) : bool := negb (String.eqb s EmptyString).

Definition dquote : string := String (ascii_of_nat 34) EmptyString.

(** ** MemStorage *)

Definition getUser (id : uuid) : M (option User) :=
  gets (fun s => JSMap.get (users s) id).

Definition createUser (insertUser : InsertUser) : M User :=
  id <- randomUUID ;;
  now <- new_Date ;;
  let role := match iu_role insertUser with
              | Some r => if truthy_string r then r else "user"
              | None => "user"
              end in
  let user := mkUser id (iu_email insertUser) (iu_password insertUser)
                     (iu_name insertUser) role now now in
  modify (fun s => set_users s (JSMap.set (users s) id user)) ;;;
  ret user.

(** [{ ...doc, createdBy: user }] *)
Definition with_user (d : Document) (u : User) : DocumentWithUser :=
  mkDocumentWithUser (doc_id d) (doc_title d) (doc_content d) (doc_summary d)
    (doc_tags d) u (doc_createdAt d) (doc_updatedAt d) (doc_version d).

(** The loop of [getDocuments]: documents whose author resolves, joined. *)
Definition join_authors (s : Store) (docs : list Document) : list DocumentWithUser :=
  flat_map (fun doc => match JSMap.get (users s) (doc_createdBy doc) with
                       | Some user => [with_user doc user]
                       | None => []
                       end) docs.

Definition getDocuments : M (list DocumentWithUser) :=
  gets (fun s => sort_desc dw_updatedAt
                   (join_authors s (JSMap.values (documents s)))).

Definition getDocumentVersions (documentId : uuid) : M (list DocumentVersion) :=
  gets (fun s => sort_desc (fun v => Z.of_nat (ver_version v))
                   (filter (fun v => Nat.eqb (ver_documentId v) documentId)
                      (JSMap.values (documentVersions s)))).

Definition getDocument (id : uuid) : M (option DocumentWithDetails) :=
  doc <- gets (fun s => JSMap.get (documents s) id) ;;
  match doc with
  | None => ret None
  | Some doc =>
      user <- getUser (doc_createdBy doc) ;;
      match user with
      | None => ret None
      | Some user =>
          versions <- getDocumentVersions id ;;
          ret (Some (mkDocumentWithDetails (with_user doc user) versions))
      end
  end.

Definition createDocumentVersion (insertVersion : InsertDocumentVersion)
  : M DocumentVersion :=
  id <- randomUUID ;;
  now <- new_Date ;;
  let version :=
    mkDocumentVersion id (iv_documentId insertVersion) (iv_title insertVersion)
      (iv_content insertVersion) (or_null_string (iv_summary insertVersion))
      (or_empty_tags (iv_tags insertVersion)) (iv_version insertVersion)
      (iv_createdBy insertVersion) now
      (or_null_string (iv_changeDescription insertVersion)) in
  modify (fun s => set_documentVersions s (JSMap.set (documentVersions s) id version)) ;;;
  ret version.

Definition createActivity (insertActivity : InsertActivity) : M Activity :=
  id <- randomUUID ;;
  now <- new_Date ;;
  let activity :=
    mkActivity id (ia_type insertActivity) (or_null_id (ia_documentId insertActivity))
      (ia_userId insertActivity) (ia_description insertActivity) now in
  modify (fun s => set_activities s (JSMap.set (activities s) id activity)) ;;;
  ret activity.

Definition createDocument (insertDocument : InsertDocument) (createdBy : uuid)
  : M Document :=
  id <- randomUUID ;;
  now <- new_Date ;;
  let document :=
    mkDocument id (id_title insertDocument) (id_content insertDocument)
      (or_null_string (id_summary insertDocument))
      (or_empty_tags (id_tags insertDocument)) createdBy now now 1 in
  modify (fun s => set_documents s (JSMap.set (documents s) id document)) ;;;
  _ <- createDocumentVersion
         (mkInsertDocumentVersion id (doc_title document) (doc_content document)
            (Some (doc_summary document)) (Some (doc_tags document)) 1 createdBy
            (Some (Some "Initial version"))) ;;
  _ <- createActivity
         (mkInsertActivity "created" (Some (Some id)) createdBy
            ("Created document " ++ dquote ++ doc_title document ++ dquote)) ;;
  ret document.

(** A key present in the parsed [updates] overrides the old value. *)
Definition override {A} (o : option A) (old : A) : A :=
  match o with Some a => a | None => old end.

(** [{ ...doc, ...updates, updatedAt: now, version: newVersion }] *)
Definition merge_updates (doc : Document) (updates : PartialInsertDocument)
  (now : Date) (newVersion : nat) : Document :=
  mkDocument (doc_id doc)
    (override (pd_title updates) (doc_title doc))
    (override (pd_content updates) (doc_content doc))
    (override (pd_summary updates) (doc_summary doc))
    (override (pd_tags updates) (doc_tags doc))
    (doc_createdBy doc) (doc_createdAt doc) now newVersion.

Definition updateDocument (id : uuid) (updates : PartialInsertDocument)
  (updatedBy : uuid) : M (option Document) :=
  doc <- gets (fun s => JSMap.get (documents s) id) ;;
  match doc with
  | None => ret None
  | Some doc =>
      now <- new_Date ;;
      let newVersion := doc_version doc + 1 in
      let updatedDocument := merge_updates doc updates now newVersion in
      modify (fun s => set_documents s (JSMap.set (documents s) id updatedDocument)) ;;;
      _ <- createDocumentVersion
             (mkInsertDocumentVersion id (doc_title updatedDocument)
                (doc_content updatedDocument) (Some (doc_summary updatedDocument))
                (Some (doc_tags updatedDocument)) newVersion updatedBy
                (Some (Some "Document updated"))) ;;
      _ <- createActivity
             (mkInsertActivity "updated" (Some (Some id)) updatedBy
                ("Updated document " ++ dquote ++ doc_title updatedDocument ++ dquote)) ;;
      ret (Some updatedDocument)
  end.

(** The two loops of [deleteDocument], over a snapshot of the entries. *)
Definition delete_versions_of (id : uuid) (m : list (uuid * DocumentVersion))
  : list (uuid * DocumentVersion) :=
  fold_left (fun acc (e : uuid * DocumentVersion) =>
               if Nat.eqb (ver_documentId (snd e)) id then JSMap.delete acc (fst e) else acc)
            m m.

(** [activity.documentId === id]: a [null] document id equals no id. *)
Definition activity_refers (id : uuid) (a : Activity) : bool :=
  match act_documentId a with Some d => Nat.eqb d id | None => false end.

Definition delete_activities_of (id : uuid) (m : list (uuid * Activity))
  : list (uuid * Activity) :=
  fold_left (fun acc (e : uuid * Activity) =>
               if activity_refers id (snd e) then JSMap.delete acc (fst e) else acc)
            m m.

Definition deleteDocument (id : uuid) : M bool :=
  doc <- gets (fun s => JSMap.get (documents s) id) ;;
  match doc with
  | None => ret false
  | Some _ =>
      modify (fun s => set_documentVersions s (delete_versions_of id (documentVersions s))) ;;;
      modify (fun s => set_activities s (delete_activities_of id (activities s))) ;;;
      modify (fun s => set_documents s (JSMap.delete (documents s) id)) ;;;
      ret true
  end.

(** The predicate passed to [allDocs.filter] in [searchDocuments]. *)
Definition search_hit (lowerQuery : string) (doc : DocumentWithUser) : bool :=
  includes (toLowerCase (dw_title doc)) lowerQuery
  || includes (toLowerCase (dw_content doc)) lowerQuery
  || match dw_summary doc with
     | Some s => truthy_string s && includes (toLowerCase s) lowerQuery
     | None => false
     end
  || match dw_tags doc with
     | Some tags => existsb (fun tag => includes (toLowerCase tag) lowerQuery) tags
     | None => false
     end.

Definition searchDocuments (query : string) : M (list DocumentWithUser) :=
  allDocs <- getDocuments ;;
  let lowerQuery := toLowerCase query in
  ret (filter (search_hit lowerQuery) allDocs).

(** The loop of [getRecentActivities]: join user and document, drop the
    activity when the user does not resolve. *)
Definition join_activity (s : Store) (a : Activity) : list ActivityWithUser :=
  match JSMap.get (users s) (act_userId a) with
  | Some user =>
      [mkActivityWithUser (act_id a) (act_type a) (act_documentId a) (act_userId a)
         (act_description a) (act_createdAt a) user
         (match act_documentId a with
          | Some d => JSMap.get (documents s) d
          | None => None
          end)]
  | None => []
  end.

(** [limit = 10] when the argument is omitted. *)
Definition getRecentActivities (limit : option Z) : M (list ActivityWithUser) :=
  let limit := match limit with Some n => n | None => 10%Z end in
  acts <- gets (fun s => slice0 (sort_desc act_createdAt (JSMap.values (activities s))) limit) ;;
  s <- gets (fun s => s) ;;
  ret (flat_map (join_activity s) acts).

(** ** Sequences of store operations *)

Inductive Op :=
| OpCreateUser (u : InsertUser)
| OpCreateDocument (d : InsertDocument) (createdBy : uuid)
| OpUpdateDocument (id : uuid) (updates : PartialInsertDocument) (updatedBy : uuid)
| OpDeleteDocument (id : uuid)
| OpCreateDocumentVersion (v : InsertDocumentVersion)
| OpCreateActivity (a : InsertActivity)
| OpTick (dt : nat).

Definition run_op (o : Op) (s : Store) : Store :=
  match o with
  | OpCreateUser u => snd (createUser u s)
  | OpCreateDocument d by_ => snd (createDocument d by_ s)
  | OpUpdateDocument id upd by_ => snd (updateDocument id upd by_ s)
  | OpDeleteDocument id => snd (deleteDocument id s)
  | OpCreateDocumentVersion v => snd (createDocumentVersion v s)
  | OpCreateActivity a => snd (createActivity a s)
  | OpTick dt => tick dt s
  end.

Fixpoint run_ops (os : list Op) (s : Store) : Store :=
  match os with
  | [] => s
  | o :: t => run_ops t (run_op o s)
  end.

(** ** Derived notions used by the statements *)

(** The version rows of document [k], in map order. *)
Definition rows_of (k : uuid) (s : Store) : list DocumentVersion :=
  filter (fun v => Nat.eqb (ver_documentId v) k) (JSMap.values (documentVersions s)).

(** A version row stores the document's fields through
    [createDocumentVersion]: [summary || null] and [tags || []]. *)
Definition snapshot_of (d : Document) (v : DocumentVersion) : Prop :=
  ver_title v = doc_title d /\ ver_content v = doc_content d /\
  ver_summary v = or_null_string (Some (doc_summary d)) /\
  ver_tags v = or_empty_tags (Some (doc_tags d)).

(** Operations of a sequence without deletion (and without the raw
    [createDocumentVersion] / [createActivity] primitives). *)
Definition create_update_op (o : Op) : bool :=
  match o with
  | OpCreateUser _ | OpCreateDocument _ _ | OpUpdateDocument _ _ _ | OpTick _ => true
  | _ => false
  end.

(** Every operation except the raw [createActivity] primitive. *)
Definition not_raw_activity_op (o : Op) : bool :=
  match o with OpCreateActivity _ => false | _ => true end.

(** [n] successive updates of document [id]. *)
Fixpoint apply_updates (id : uuid) (us : list (PartialInsertDocument * uuid)) (s : Store)
  : Store :=
  match us with
  | [] => s
  | (u, e) :: t => apply_updates id t (snd (updateDocument id u e s))
  end.

(** Every key of the four maps was drawn before [next_uuid]. *)
Definition keys_below {V} (n : nat) (m : list (uuid * V)) : Prop :=
  Forall (fun k => k < n) (JSMap.keys m).

Definition fresh_ok (s : Store) : Prop :=
  keys_below (next_uuid s) (users s) /\ keys_below (next_uuid s) (documents s) /\
  keys_below (next_uuid s) (documentVersions s) /\ keys_below (next_uuid s) (activities s).

Open Scope list_scope.

(** ** Lemmas on the map model *)

Section MapLemmas.
Context {V : Type}.
Implicit Types (m : list (uuid * V)) (k : uuid) (v : V).

Lemma get_set m k k' v :
  JSMap.get (JSMap.set m k v) k' = if Nat.eqb k k' then Some v else JSMap.get m k'.
Proof.
  induction m as [|[k0 v0] t IH]; simpl.
  - reflexivity.
  - destruct (Nat.eqb k0 k) eqn:E0; simpl.
    + apply Nat.eqb_eq in E0; subst k0. destruct (Nat.eqb k k'); reflexivity.
    + destruct (Nat.eqb k0 k') eqn:E1.
      * apply Nat.eqb_eq in E1; subst k0.
        rewrite Nat.eqb_sym, E0. reflexivity.
      * exact IH.
Qed.

Lemma set_fresh m k v : JSMap.get m k = None -> JSMap.set m k v = m ++ [(k, v)].
Proof.
  induction m as [|[k0 v0] t IH]; simpl; intros H.
  - reflexivity.
  - destruct (Nat.eqb k0 k); [discriminate|]. f_equal. exact (IH H).
Qed.

Lemma get_below n m : keys_below n m -> JSMap.get m n = None.
Proof.
  unfold keys_below; induction m as [|[k0 v0] t IH]; simpl; intros H.
  - reflexivity.
  - inversion H; subst. destruct (Nat.eqb k0 n) eqn:E.
    + apply Nat.eqb_eq in E. lia.
    + auto.
Qed.

Lemma get_Some_key m k v : JSMap.get m k = Some v -> In k (JSMap.keys m).
Proof.
  induction m as [|[k0 v0] t IH]; simpl; intros H; [discriminate|].
  destruct (Nat.eqb k0 k) eqn:E; [left; apply Nat.eqb_eq; exact E|right; auto].
Qed.

Lemma get_Some_value m k v : JSMap.get m k = Some v -> In v (JSMap.values m).
Proof.
  induction m as [|[k0 v0] t IH]; simpl; intros H; [discriminate|].
  destruct (Nat.eqb k0 k); [left; congruence|right; auto].
Qed.

Lemma In_values_set m k v : In v (JSMap.values (JSMap.set m k v)).
Proof.
  induction m as [|[k0 v0] t IH]; simpl; [auto|].
  destruct (Nat.eqb k0 k); simpl; auto.
Qed.

Lemma get_delete m k : JSMap.get (JSMap.delete m k) k = None.
Proof.
  unfold JSMap.delete; induction m as [|[k0 v0] t IH]; simpl; [reflexivity|].
  destruct (Nat.eqb k0 k) eqn:E; simpl; [exact IH|rewrite E; exact IH].
Qed.

Lemma keys_below_app n m k v :
  keys_below n m -> k < n -> keys_below n (m ++ [(k, v)]).
Proof.
  unfold keys_below, JSMap.keys; intros H Hk. rewrite map_app.
  apply Forall_app; split; [exact H|constructor; [exact Hk|constructor]].
Qed.

Lemma keys_below_mono n n' m : n <= n' -> keys_below n m -> keys_below n' m.
Proof.
  unfold keys_below; intros Hn H. eapply Forall_impl; [|exact H]. simpl; intros; lia.
Qed.

Lemma keys_set m k v : JSMap.keys (JSMap.set m k v) = JSMap.keys m \/
                       JSMap.keys (JSMap.set m k v) = JSMap.keys m ++ [k].
Proof.
  induction m as [|[k0 v0] t IH]; simpl; [right; reflexivity|].
  destruct (Nat.eqb k0 k) eqn:E; simpl.
  - left. apply Nat.eqb_eq in E. subst. reflexivity.
  - destruct IH as [IH|IH]; rewrite IH; [left|right]; reflexivity.
Qed.

Lemma keys_below_set n m k v :
  keys_below n m -> k < n -> keys_below n (JSMap.set m k v).
Proof.
  unfold keys_below; intros H Hk.
  destruct (keys_set m k v) as [E|E]; rewrite E; [exact H|].
  apply Forall_app; split; [exact H|constructor; [exact Hk|constructor]].
Qed.

End MapLemmas.

(** ** Lemmas on the stable descending sort *)

Section SortLemmas.
Context {A : Type} (key : A -> Z).

Definition desc (a b : A) : Prop := (key b <= key a)%Z.

Lemma insert_desc_perm x l : Permutation (insert_desc key x l) (x :: l).
Proof.
  induction l as [|y t IH]; simpl; [auto|].
  destruct (key x <=? key y)%Z.
  - eapply perm_trans; [apply perm_skip; exact IH|apply perm_swap].
  - apply Permutation_refl.
Qed.

Lemma sort_desc_perm_acc l acc :
  Permutation (fold_left (fun acc x => insert_desc key x acc) l acc) (acc ++ l).
Proof.
  revert acc; induction l as [|x t IH]; intros acc; simpl.
  - rewrite app_nil_r; apply Permutation_refl.
  - eapply perm_trans; [apply IH|].
    eapply perm_trans; [apply Permutation_app_tail; apply insert_desc_perm|].
    simpl. apply Permutation_cons_app with (l1 := acc) (l2 := t). apply Permutation_refl.
Qed.

Lemma sort_desc_perm l : Permutation (sort_desc key l) l.
Proof. unfold sort_desc. exact (sort_desc_perm_acc l []). Qed.

Lemma insert_desc_sorted x l :
  StronglySorted desc l -> StronglySorted desc (insert_desc key x l).
Proof.
  induction l as [|y t IH]; simpl; intros H.
  - repeat constructor.
  - inversion H as [|? ? Ht Hy]; subst.
    destruct (key x <=? key y)%Z eqn:E.
    + constructor; [exact (IH Ht)|].
      apply Forall_forall; intros z Hz.
      apply (Permutation_in _ (insert_desc_perm x t)) in Hz.
      destruct Hz as [<-|Hz]; [unfold desc; lia|].
      rewrite Forall_forall in Hy; exact (Hy z Hz).
    + constructor; [exact H|].
      constructor; [unfold desc; lia|].
      apply Forall_forall; intros z Hz. rewrite Forall_forall in Hy.
      specialize (Hy z Hz). unfold desc in *; lia.
Qed.

Lemma sort_desc_sorted l : StronglySorted desc (sort_desc key l).
Proof.
  unfold sort_desc.
  assert (G : forall acc, StronglySorted desc acc ->
            StronglySorted desc (fold_left (fun acc x => insert_desc key x acc) l acc)).
  { induction l as [|x t IH]; intros acc Hacc; simpl; [exact Hacc|].
    apply IH, insert_desc_sorted, Hacc. }
  apply G; constructor.
Qed.

Lemma sorted_app_desc l1 l2 x y :
  StronglySorted desc (l1 ++ l2) -> In x l1 -> In y l2 -> (key y <= key x)%Z.
Proof.
  induction l1 as [|a t IH]; simpl; intros H Hx Hy; [contradiction|].
  inversion H as [|? ? Ht Ha]; subst.
  destruct Hx as [<-|Hx].
  - rewrite Forall_forall in Ha. apply Ha, in_or_app; right; exact Hy.
  - exact (IH Ht Hx Hy).
Qed.

End SortLemmas.

(** ** What each operation does to the store *)

Lemma createDocument_unfold ins a s :
  createDocument ins a s =
  let n := next_uuid s in
  let d := mkDocument n (id_title ins) (id_content ins) (or_null_string (id_summary ins))
             (or_empty_tags (id_tags ins)) a (clock s) (clock s) 1 in
  let row := mkDocumentVersion (S n) n (doc_title d) (doc_content d)
               (or_null_string (Some (doc_summary d))) (or_empty_tags (Some (doc_tags d)))
               1 a (clock s) (Some "Initial version") in
  let act := mkActivity (S (S n)) "created" (Some n) a
               ("Created document " ++ dquote ++ doc_title d ++ dquote)%string (clock s) in
  (d, mkStore (users s) (JSMap.set (documents s) n d)
              (JSMap.set (documentVersions s) (S n) row)
              (JSMap.set (activities s) (S (S n)) act) (S (S (S n))) (clock s)).
Proof. reflexivity. Qed.

Lemma updateDocument_none id u e s :
  JSMap.get (documents s) id = None -> updateDocument id u e s = (None, s).
Proof. intros H. unfold updateDocument, bind, gets. rewrite H. reflexivity. Qed.

Lemma updateDocument_unfold id u e s doc :
  JSMap.get (documents s) id = Some doc ->
  updateDocument id u e s =
  let n := next_uuid s in
  let ud := merge_updates doc u (clock s) (doc_version doc + 1) in
  let row := mkDocumentVersion n id (doc_title ud) (doc_content ud)
               (or_null_string (Some (doc_summary ud))) (or_empty_tags (Some (doc_tags ud)))
               (doc_version doc + 1) e (clock s) (Some "Document updated") in
  let act := mkActivity (S n) "updated" (Some id) e
               ("Updated document " ++ dquote ++ doc_title ud ++ dquote)%string (clock s) in
  (Some ud, mkStore (users s) (JSMap.set (documents s) id ud)
                    (JSMap.set (documentVersions s) n row)
                    (JSMap.set (activities s) (S n) act) (S (S n)) (clock s)).
Proof. intros H. unfold updateDocument, bind, gets. rewrite H. reflexivity. Qed.

Lemma createUser_unfold iu s :
  exists u, createUser iu s =
    (u, mkStore (JSMap.set (users s) (next_uuid s) u) (documents s) (documentVersions s)
                (activities s) (S (next_uuid s)) (clock s)).
Proof.
  eexists. cbv [createUser bind randomUUID new_Date gets modify ret set_users]. reflexivity.
Qed.

Lemma createActivity_unfold ia s :
  createActivity ia s =
  let act := mkActivity (next_uuid s) (ia_type ia) (or_null_id (ia_documentId ia))
               (ia_userId ia) (ia_description ia) (clock s) in
  (act, mkStore (users s) (documents s) (documentVersions s)
                (JSMap.set (activities s) (next_uuid s) act) (S (next_uuid s)) (clock s)).
Proof. reflexivity. Qed.

Lemma createDocumentVersion_unfold iv s :
  exists row, createDocumentVersion iv s =
    (row, mkStore (users s) (documents s)
                  (JSMap.set (documentVersions s) (next_uuid s) row) (activities s)
                  (S (next_uuid s)) (clock s)).
Proof.
  eexists. cbv [createDocumentVersion bind randomUUID new_Date gets modify ret
                set_documentVersions]. reflexivity.
Qed.

(** ** The version-log invariant *)

Definition versions_inv (s : Store) : Prop :=
  fresh_ok s /\
  Forall (fun v => ver_documentId v < next_uuid s) (JSMap.values (documentVersions s)) /\
  forall k d, JSMap.get (documents s) k = Some d ->
    Permutation (map ver_version (rows_of k s)) (seq 1 (doc_version d)) /\
    forall v, In v (rows_of k s) -> ver_version v = doc_version d -> snapshot_of d v.

Lemma rows_append k (m : list (uuid * DocumentVersion)) n row :
  filter (fun v => Nat.eqb (ver_documentId v) k) (JSMap.values (m ++ [(n, row)])) =
  filter (fun v => Nat.eqb (ver_documentId v) k) (JSMap.values m) ++
  (if Nat.eqb (ver_documentId row) k then [row] else []).
Proof. unfold JSMap.values. rewrite map_app, filter_app. reflexivity. Qed.

Lemma rows_none k l :
  Forall (fun v => ver_documentId v < k) l ->
  filter (fun v => Nat.eqb (ver_documentId v) k) l = [].
Proof.
  induction l as [|v t IH]; simpl; intros H; [reflexivity|].
  inversion H; subst. destruct (Nat.eqb (ver_documentId v) k) eqn:E.
  - apply Nat.eqb_eq in E. lia.
  - auto.
Qed.

Lemma versions_inv_init t0 : versions_inv (init t0).
Proof.
  unfold versions_inv, fresh_ok, keys_below; simpl.
  split; [repeat split; constructor|split; [constructor|]].
  intros k d H; discriminate H.
Qed.

Lemma Forall_lt_mono (l : list DocumentVersion) n n' :
  n <= n' -> Forall (fun v => ver_documentId v < n) l ->
  Forall (fun v => ver_documentId v < n') l.
Proof. intros Hn H. eapply Forall_impl; [|exact H]. simpl; intros; lia. Qed.

Lemma versions_inv_tick dt s : versions_inv s -> versions_inv (tick dt s).
Proof. destruct s; exact (fun H => H). Qed.

Lemma versions_inv_createUser iu s : versions_inv s -> versions_inv (snd (createUser iu s)).
Proof.
  destruct (createUser_unfold iu s) as [u E]; rewrite E; simpl.
  intros (Hf & Hv & Hd). destruct Hf as (Hu & Hdo & Hve & Ha).
  split; [|split].
  - unfold fresh_ok; simpl. repeat split.
    + apply keys_below_set; [apply (keys_below_mono _ _ _ (le_S _ _ (le_n _)) Hu)|lia].
    + exact (keys_below_mono _ _ _ (le_S _ _ (le_n _)) Hdo).
    + exact (keys_below_mono _ _ _ (le_S _ _ (le_n _)) Hve).
    + exact (keys_below_mono _ _ _ (le_S _ _ (le_n _)) Ha).
  - exact (Forall_lt_mono _ _ _ (le_S _ _ (le_n _)) Hv).
  - exact Hd.
Qed.

Ltac below_mono H :=
  match type of H with
  | keys_below ?b _ => apply (keys_below_mono b); [lia|exact H]
  end.

Lemma versions_inv_createDocument ins a s :
  versions_inv s -> versions_inv (snd (createDocument ins a s)).
Proof.
  rewrite createDocument_unfold. cbv zeta. simpl snd.
  intros (Hf & Hv & Hd). pose proof Hf as (Hu & Hdo & Hve & Ha).
  assert (Fve : JSMap.get (documentVersions s) (S (next_uuid s)) = None).
  { apply get_below. below_mono Hve. }
  rewrite (set_fresh _ _ _ Fve).
  split; [|split].
  - unfold fresh_ok; simpl. repeat split.
    + below_mono Hu.
    + apply keys_below_set; [below_mono Hdo|lia].
    + apply keys_below_app; [below_mono Hve|lia].
    + apply keys_below_set; [below_mono Ha|lia].
  - simpl. unfold JSMap.values; rewrite map_app. apply Forall_app; split.
    + apply Forall_lt_mono with (n := next_uuid s); [lia|exact Hv].
    + constructor; [simpl; lia|constructor].
  - intros k d0. simpl. rewrite get_set. unfold rows_of; simpl. rewrite rows_append. simpl.
    destruct (Nat.eqb (next_uuid s) k) eqn:E.
    + apply Nat.eqb_eq in E; subst k. intros H; injection H as <-.
      rewrite (rows_none _ _ Hv). simpl. split; [apply Permutation_refl|].
      intros v [<-|[]] _. repeat split.
    + intros H. rewrite app_nil_r. exact (Hd k d0 H).
Qed.

Lemma versions_inv_updateDocument id u e s :
  versions_inv s -> versions_inv (snd (updateDocument id u e s)).
Proof.
  intros Hi. destruct (JSMap.get (documents s) id) as [doc|] eqn:Hg.
  2: rewrite (updateDocument_none _ _ _ _ Hg); exact Hi.
  rewrite (updateDocument_unfold _ _ _ _ _ Hg). cbv zeta. simpl snd.
  destruct Hi as (Hf & Hv & Hd). pose proof Hf as (Hu & Hdo & Hve & Ha).
  assert (Hid : id < next_uuid s).
  { apply get_Some_key in Hg. unfold keys_below in Hdo. rewrite Forall_forall in Hdo. auto. }
  rewrite (set_fresh _ _ _ (get_below _ _ Hve)).
  split; [|split].
  - unfold fresh_ok; simpl. repeat split.
    + below_mono Hu.
    + apply keys_below_set; [below_mono Hdo|lia].
    + apply keys_below_app; [below_mono Hve|lia].
    + apply keys_below_set; [below_mono Ha|lia].
  - simpl. unfold JSMap.values; rewrite map_app. apply Forall_app; split.
    + apply Forall_lt_mono with (n := next_uuid s); [lia|exact Hv].
    + constructor; [simpl; lia|constructor].
  - intros k d0. simpl. rewrite get_set. unfold rows_of; simpl. rewrite rows_append. simpl.
    destruct (Nat.eqb id k) eqn:E.
    + apply Nat.eqb_eq in E; subst k. intros H; injection H as <-.
      destruct (Hd id doc Hg) as [Hp Hs]. simpl. split.
      * rewrite map_app. simpl. rewrite Nat.add_1_r, seq_S.
        apply Permutation_app_tail. exact Hp.
      * intros v Hin Hver. apply in_app_or in Hin. destruct Hin as [Hin|[<-|[]]].
        -- exfalso. apply (in_map ver_version) in Hin.
           apply (Permutation_in _ Hp), in_seq in Hin. simpl in Hver. lia.
        -- repeat split.
    + intros H. rewrite app_nil_r. exact (Hd k d0 H).
Qed.

Lemma versions_inv_run ops s :
  forallb create_update_op ops = true -> versions_inv s -> versions_inv (run_ops ops s).
Proof.
  revert s; induction ops as [|o t IH]; intros s Hops Hi; simpl in *; [exact Hi|].
  apply andb_true_iff in Hops as [Ho Ht]. apply IH; [exact Ht|].
  destruct o; try discriminate Ho; simpl.
  - apply versions_inv_createUser, Hi.
  - apply versions_inv_createDocument, Hi.
  - apply versions_inv_updateDocument, Hi.
  - apply versions_inv_tick, Hi.
Qed.

Lemma updateDocument_stores id u e s doc :
  JSMap.get (documents s) id = Some doc ->
  JSMap.get (documents (snd (updateDocument id u e s))) id =
  Some (merge_updates doc u (clock s) (doc_version doc + 1)).
Proof.
  intros Hg. rewrite (updateDocument_unfold _ _ _ _ _ Hg). simpl.
  rewrite get_set, Nat.eqb_refl. reflexivity.
Qed.

Lemma apply_updates_spec id us s d :
  versions_inv s -> JSMap.get (documents s) id = Some d ->
  versions_inv (apply_updates id us s) /\
  exists d', JSMap.get (documents (apply_updates id us s)) id = Some d' /\
             doc_version d' = doc_version d + length us.
Proof.
  revert s d; induction us as [|[u e] t IH]; intros s d Hi Hg; simpl.
  - split; [exact Hi|]. exists d. split; [exact Hg|lia].
  - destruct (IH (snd (updateDocument id u e s)) (merge_updates d u (clock s) (doc_version d + 1)))
      as [Hi' [d' [Hg' Hv']]].
    + apply versions_inv_updateDocument, Hi.
    + apply updateDocument_stores, Hg.
    + split; [exact Hi'|]. exists d'. split; [exact Hg'|]. rewrite Hv'. simpl. lia.
Qed.

Lemma createDocument_stores ins a s :
  JSMap.get (documents (snd (createDocument ins a s))) (doc_id (fst (createDocument ins a s))) =
  Some (fst (createDocument ins a s)).
Proof. rewrite createDocument_unfold. simpl. rewrite get_set, Nat.eqb_refl. reflexivity. Qed.

(** ** Concrete inputs *)

Definition alice : InsertUser := mkInsertUser "alice@example.com" "secret1" "Alice" None.
Definition onboarding : InsertDocument :=
  mkInsertDocument "Onboarding" "Welcome..." None None.
Definition retitle : PartialInsertDocument :=
  mkPartialInsertDocument (Some "Onboarding Guide") None None None.
(** What the editor page sends when the summary box is left empty. *)
Definition empty_summary_edit : PartialInsertDocument :=
  mkPartialInsertDocument None None (Some (Some EmptyString)) None.

(** Alice (id 0) creates "Onboarding" (id 1), then retitles it. *)
Definition scenario_ops : list Op :=
  [OpCreateUser alice; OpCreateDocument onboarding 0; OpTick 1000;
   OpUpdateDocument 1 retitle 0].

(** Same, but the edit leaves the summary box empty. *)
Definition empty_summary_ops : list Op :=
  [OpCreateUser alice; OpCreateDocument onboarding 0; OpTick 1000;
   OpUpdateDocument 1 empty_summary_edit 0].

(** ** C1 *)

(** The version-log invariant read with the row's fields equal to the
    document's. *)
Definition C1_claim : Prop :=
  forall t0 ops, forallb create_update_op ops = true ->
  let s := run_ops ops (init t0) in
  (forall k d, JSMap.get (documents s) k = Some d ->
     Permutation (map ver_version (rows_of k s)) (seq 1 (doc_version d)) /\
     forall v, In v (rows_of k s) -> ver_version v = doc_version d ->
       ver_title v = doc_title d /\ ver_content v = doc_content d /\
       ver_summary v = doc_summary d /\ ver_tags v = doc_tags d) /\
  (forall ins a us,
     let d := fst (createDocument ins a s) in
     let s' := apply_updates (doc_id d) us (snd (createDocument ins a s)) in
     exists d', JSMap.get (documents s') (doc_id d) = Some d' /\
       doc_version d' = S (length us) /\
       Permutation (map ver_version (rows_of (doc_id d) s')) (seq 1 (S (length us)))).

(** C1 (defect): after an update whose summary is the empty string,
    the document's summary is [""] while the version row numbered 2 stores
    [null] ([createDocumentVersion] applies [summary || null]). *)
Lemma C1_empty_summary_row_differs : ~ C1_claim.
Proof.
  unfold C1_claim. intros H.
  destruct (H 0%Z empty_summary_ops eq_refl) as [Hinv _]. cbv zeta in Hinv.
  destruct (Hinv 1 _ eq_refl) as [_ Hm].
  specialize (Hm _ (or_intror (or_introl eq_refl)) eq_refl).
  destruct Hm as (_ & _ & Hs & _). vm_compute in Hs. discriminate Hs.
Qed.

(** The part of C1 that holds: in every state reached by creations and updates (no
    deletion), a document with version N has version rows numbered exactly
    1..N, each once, and the row numbered N holds the document's title and
    content and its summary and tags as [createDocumentVersion] stores them
    ([summary || null], [tags || []]); after N updates of a freshly created
    document its version is N+1 with rows numbered 1..N+1. *)
Theorem C1_version_log_contiguous t0 ops :
  forallb create_update_op ops = true ->
  let s := run_ops ops (init t0) in
  (forall k d, JSMap.get (documents s) k = Some d ->
     Permutation (map ver_version (rows_of k s)) (seq 1 (doc_version d)) /\
     forall v, In v (rows_of k s) -> ver_version v = doc_version d -> snapshot_of d v) /\
  (forall ins a us,
     let d := fst (createDocument ins a s) in
     let s' := apply_updates (doc_id d) us (snd (createDocument ins a s)) in
     exists d', JSMap.get (documents s') (doc_id d) = Some d' /\
       doc_version d' = S (length us) /\
       Permutation (map ver_version (rows_of (doc_id d) s')) (seq 1 (S (length us)))).
Proof.
  intros Hops s.
  assert (Hi : versions_inv s) by (apply versions_inv_run; [exact Hops|apply versions_inv_init]).
  split.
  - destruct Hi as (_ & _ & Hd). exact Hd.
  - intros ins a us d s'.
    assert (Hi1 := versions_inv_createDocument ins a s Hi).
    destruct (apply_updates_spec (doc_id d) us _ d Hi1 (createDocument_stores ins a s))
      as [Hi' [d' [Hg' Hv']]].
    assert (Hd1 : doc_version d = 1) by (unfold d; rewrite createDocument_unfold; reflexivity).
    exists d'. split; [exact Hg'|]. split; [lia|].
    destruct Hi' as (_ & _ & Hd').
    replace (S (length us)) with (doc_version d') by lia.
    apply (Hd' _ _ Hg').
Qed.

Lemma C1_version_log_contiguous_witness :
  forallb create_update_op scenario_ops = true /\
  Permutation (map ver_version (rows_of 1 (run_ops scenario_ops (init 0%Z)))) (seq 1 2).
Proof.
  split; [reflexivity|].
  destruct (C1_version_log_contiguous 0%Z scenario_ops eq_refl) as [H _].
  exact (proj1 (H 1 _ eq_refl)).
Defined.

(** ** The deletion loops *)

Section FoldDelete.
Context {V : Type} (p : V -> bool).

Lemma In_delete (m : list (uuid * V)) k e : In e (JSMap.delete m k) -> In e m /\ fst e <> k.
Proof.
  unfold JSMap.delete. intros H. apply filter_In in H as [H1 H2].
  split; [exact H1|]. apply negb_true_iff, Nat.eqb_neq in H2. exact H2.
Qed.

Lemma In_keys (m : list (uuid * V)) k : In k (JSMap.keys m) -> exists v, In (k, v) m.
Proof.
  unfold JSMap.keys. intros H. apply in_map_iff in H as [[k' v] [E H]].
  simpl in E; subst. exists v; exact H.
Qed.

(** Iterating over a snapshot [l] and deleting the keys of the entries
    selected by [p]: nothing is added, and no selected key survives. *)
Lemma fold_delete_spec (l acc : list (uuid * V)) :
  let r := fold_left (fun acc e => if p (snd e) then JSMap.delete acc (fst e) else acc) l acc in
  (forall e, In e r -> In e acc) /\
  (forall e, In e l -> p (snd e) = true -> ~ In (fst e) (JSMap.keys r)).
Proof.
  revert acc; induction l as [|e0 t IH]; intros acc; simpl.
  - split; [auto|intros _ []].
  - destruct (IH (if p (snd e0) then JSMap.delete acc (fst e0) else acc)) as [Hsub Hgone].
    split.
    + intros e He. apply Hsub in He. destruct (p (snd e0)); [apply In_delete in He; tauto|exact He].
    + intros e [<-|He] Hp.
      * intros Hk. apply In_keys in Hk as [v Hv]. apply Hsub in Hv. rewrite Hp in Hv.
        apply In_delete in Hv as [_ Hne]. simpl in Hne. contradiction.
      * exact (Hgone e He Hp).
Qed.

Lemma fold_delete_values (m : list (uuid * V)) v :
  In v (JSMap.values (fold_left (fun acc e => if p (snd e) then JSMap.delete acc (fst e) else acc) m m)) ->
  In v (JSMap.values m) /\ p v = false.
Proof.
  destruct (fold_delete_spec m m) as [Hsub Hgone]. unfold JSMap.values.
  intros H. apply in_map_iff in H as [[k w] [E Hin]]. simpl in E; subst w.
  pose proof (Hsub _ Hin) as Hm. split; [apply in_map_iff; exists (k, v); auto|].
  destruct (p v) eqn:Hp; [|reflexivity]. exfalso.
  apply (Hgone (k, v) Hm Hp). unfold JSMap.keys. apply in_map_iff. exists (k, v); auto.
Qed.

End FoldDelete.

Lemma rows_none_gen {A} (f : A -> bool) (l : list A) :
  (forall x, In x l -> f x = false) -> filter f l = [].
Proof.
  induction l as [|x t IH]; simpl; intros H; [reflexivity|].
  rewrite (H x (or_introl eq_refl)). apply IH. intros y Hy. apply H; right; exact Hy.
Qed.

(** ** C2 *)

(** C2: [deleteDocument id] returns [false] and leaves the store as it is when
    no document [id] exists; otherwise it returns [true], removes the document,
    every version row and every activity whose documentId is [id], so that
    [getDocument id] is absent and [getDocumentVersions id] is empty. *)
Theorem C2_deleteDocument_cascade id s :
  match JSMap.get (documents s) id with
  | None => deleteDocument id s = (false, s)
  | Some _ =>
      let s' := snd (deleteDocument id s) in
      fst (deleteDocument id s) = true /\
      documents s' = JSMap.delete (documents s) id /\
      fst (getDocument id s') = None /\
      fst (getDocumentVersions id s') = [] /\
      (forall v, In v (JSMap.values (documentVersions s')) ->
         In v (JSMap.values (documentVersions s)) /\ ver_documentId v <> id) /\
      (forall a, In a (JSMap.values (activities s')) ->
         In a (JSMap.values (activities s)) /\ act_documentId a <> Some id) /\
      users s' = users s
  end.
Proof.
  unfold deleteDocument, bind, gets, modify, ret.
  destruct (JSMap.get (documents s) id) as [doc|] eqn:Hg; [|reflexivity].
  simpl.
  assert (Hv : forall v, In v (JSMap.values (delete_versions_of id (documentVersions s))) ->
                In v (JSMap.values (documentVersions s)) /\ ver_documentId v <> id).
  { intros v H. apply (fold_delete_values (fun v => Nat.eqb (ver_documentId v) id)) in H.
    destruct H as [H1 H2]. split; [exact H1|]. apply Nat.eqb_neq, H2. }
  split; [reflexivity|]. split; [reflexivity|].
  split; [|split; [|split; [exact Hv|split; [|reflexivity]]]].
  - unfold getDocument, bind, gets. simpl. rewrite get_delete. reflexivity.
  - unfold getDocumentVersions, gets; simpl.
    replace (filter _ _) with (@nil DocumentVersion); [reflexivity|].
    symmetry. apply rows_none_gen.
    intros v Hin. apply Hv in Hin as [_ Hne]. apply Nat.eqb_neq, Hne.
  - intros a H. apply (fold_delete_values (activity_refers id)) in H. destruct H as [H1 H2].
    split; [exact H1|]. unfold activity_refers in H2. intros E. rewrite E, Nat.eqb_refl in H2.
    discriminate H2.
Qed.

(** ** C3 *)

(** The snapshot part of C3: the appended row carries the post-merge
    summary and tags as they are. *)
Definition C3_snapshot_claim : Prop :=
  forall id u e s doc, fresh_ok s -> JSMap.get (documents s) id = Some doc ->
  exists ud vid row,
    fst (updateDocument id u e s) = Some ud /\
    documentVersions (snd (updateDocument id u e s)) = documentVersions s ++ [(vid, row)] /\
    ver_title row = doc_title ud /\ ver_content row = doc_content ud /\
    ver_summary row = doc_summary ud /\ ver_tags row = doc_tags ud.

(** The store right after Alice created "Onboarding" (document 1). *)
Definition after_create : Store :=
  run_ops [OpCreateUser alice; OpCreateDocument onboarding 0] (init 0%Z).

(** C3 (defect): updating document 1 with an empty-string summary
    stores [""] in the document but [null] in the appended row. *)
Lemma C3_empty_summary_snapshot_differs : ~ C3_snapshot_claim.
Proof.
  unfold C3_snapshot_claim. intros H.
  destruct (H 1 empty_summary_edit 0 after_create _ ltac:(repeat constructor) eq_refl)
    as (ud & vid & row & Hf & Hv & _ & _ & Hs & _).
  vm_compute in Hf. injection Hf as <-.
  vm_compute in Hv. injection Hv as _ <-.
  vm_compute in Hs. discriminate Hs.
Qed.

(** The part of C3 that holds: updating an existing document merges the given fields over
    it (an omitted field keeps its value, a given one, [null] included,
    replaces it), sets [updatedAt] to now and the version to one more,
    stores the merged document, appends one version row with the new
    version number, [changeDescription = "Document updated"] and the merged
    title and content, its summary as [summary || null] and its tags as
    [tags || []], and appends one ["updated"] activity. *)
Theorem C3_update_merges_and_logs id u e s doc :
  fresh_ok s -> JSMap.get (documents s) id = Some doc ->
  exists ud vid row aid act,
    fst (updateDocument id u e s) = Some ud /\
    (pd_title u = None -> doc_title ud = doc_title doc) /\
    (forall t, pd_title u = Some t -> doc_title ud = t) /\
    (pd_content u = None -> doc_content ud = doc_content doc) /\
    (forall c, pd_content u = Some c -> doc_content ud = c) /\
    (pd_summary u = None -> doc_summary ud = doc_summary doc) /\
    (forall x, pd_summary u = Some x -> doc_summary ud = x) /\
    (pd_tags u = None -> doc_tags ud = doc_tags doc) /\
    (forall x, pd_tags u = Some x -> doc_tags ud = x) /\
    doc_updatedAt ud = clock s /\
    doc_version ud = doc_version doc + 1 /\
    documents (snd (updateDocument id u e s)) = JSMap.set (documents s) id ud /\
    documentVersions (snd (updateDocument id u e s)) = documentVersions s ++ [(vid, row)] /\
    ver_documentId row = id /\ ver_version row = doc_version ud /\
    ver_changeDescription row = Some "Document updated" /\
    snapshot_of ud row /\
    activities (snd (updateDocument id u e s)) = activities s ++ [(aid, act)] /\
    act_type act = "updated" /\ act_documentId act = Some id.
Proof.
  intros (Hu & Hdo & Hve & Ha) Hg.
  rewrite (updateDocument_unfold _ _ _ _ _ Hg). cbv zeta. simpl.
  rewrite (set_fresh _ _ _ (get_below _ _ Hve)).
  assert (Fa : JSMap.get (activities s) (S (next_uuid s)) = None)
    by (apply get_below; below_mono Ha).
  rewrite (set_fresh _ _ _ Fa).
  do 5 eexists.
  split; [reflexivity|].
  unfold merge_updates, override; simpl.
  repeat split; try (intros ? E; rewrite E; reflexivity); try (intros E; rewrite E; reflexivity).
Qed.

Lemma C3_update_merges_and_logs_witness :
  fresh_ok after_create /\ JSMap.get (documents after_create) 1 <> None /\
  exists ud, fst (updateDocument 1 retitle 0 after_create) = Some ud /\
             doc_version ud = 2.
Proof.
  split; [repeat constructor|split; [vm_compute; discriminate|]].
  destruct (JSMap.get (documents after_create) 1) as [doc|] eqn:Hg; [|discriminate].
  destruct (C3_update_merges_and_logs 1 retitle 0 after_create doc ltac:(repeat constructor) Hg)
    as (ud & _ & _ & _ & _ & Hf & _ & _ & _ & _ & _ & _ & _ & _ & _ & Hv & _).
  exists ud. split; [exact Hf|]. rewrite Hv. vm_compute in Hg. injection Hg as <-. reflexivity.
Defined.

(** ** C4 *)

(** C4: [createDocument] draws a fresh identifier and returns a document with
    version 1, [createdAt = updatedAt] and the given author; the store gains
    exactly that document, one version row (version 1, "Initial version")
    and one ["created"] activity for it, and nothing else changes. *)
Theorem C4_createDocument_effect ins a s :
  fresh_ok s ->
  let d := fst (createDocument ins a s) in
  let s' := snd (createDocument ins a s) in
  JSMap.get (documents s) (doc_id d) = None /\
  doc_version d = 1 /\ doc_createdAt d = doc_updatedAt d /\ doc_createdBy d = a /\
  documents s' = documents s ++ [(doc_id d, d)] /\
  (exists vid row, documentVersions s' = documentVersions s ++ [(vid, row)] /\
     ver_documentId row = doc_id d /\ ver_version row = 1 /\
     ver_changeDescription row = Some "Initial version") /\
  (exists aid act, activities s' = activities s ++ [(aid, act)] /\
     act_type act = "created" /\ act_documentId act = Some (doc_id d)) /\
  users s' = users s /\ clock s' = clock s.
Proof.
  intros (Hu & Hdo & Hve & Ha). rewrite createDocument_unfold. cbv zeta. simpl.
  assert (F1 := get_below _ _ Hdo).
  assert (F2 : JSMap.get (documentVersions s) (S (next_uuid s)) = None)
    by (apply get_below; below_mono Hve).
  assert (F3 : JSMap.get (activities s) (S (S (next_uuid s))) = None)
    by (apply get_below; below_mono Ha).
  rewrite (set_fresh _ _ _ F1), (set_fresh _ _ _ F2), (set_fresh _ _ _ F3).
  split; [exact F1|]. repeat split; do 2 eexists; repeat split.
Qed.

Lemma C4_createDocument_effect_witness :
  fresh_ok (init 0%Z) /\ doc_version (fst (createDocument onboarding 0 (init 0%Z))) = 1.
Proof.
  split; [repeat constructor|].
  exact (proj1 (proj2 (C4_createDocument_effect onboarding 0 (init 0%Z) ltac:(repeat constructor)))).
Defined.

(** ** C7 *)

(** C7: updating an absent document returns the absent result and leaves the
    whole store unchanged. *)
Theorem C7_update_missing_is_noop id u e s :
  JSMap.get (documents s) id = None -> updateDocument id u e s = (None, s).
Proof. apply updateDocument_none. Qed.

Lemma C7_update_missing_is_noop_witness :
  JSMap.get (documents after_create) 7 = None /\
  updateDocument 7 retitle 0 after_create = (None, after_create).
Proof.
  split; [vm_compute; reflexivity|].
  apply C7_update_missing_is_noop. vm_compute. reflexivity.
Defined.

(** ** C9 *)

(** C9: whoever edits, an update keeps the document's id, author and
    creation time, while the appended version row names the editor. *)
Theorem C9_update_keeps_owner id u e s doc :
  JSMap.get (documents s) id = Some doc ->
  exists ud, fst (updateDocument id u e s) = Some ud /\
    JSMap.get (documents (snd (updateDocument id u e s))) id = Some ud /\
    doc_id ud = doc_id doc /\ doc_createdBy ud = doc_createdBy doc /\
    doc_createdAt ud = doc_createdAt doc /\
    exists row, In row (JSMap.values (documentVersions (snd (updateDocument id u e s)))) /\
      ver_documentId row = id /\ ver_version row = doc_version ud /\ ver_createdBy row = e.
Proof.
  intros Hg. pose proof (updateDocument_stores id u e s doc Hg) as Hst.
  rewrite (updateDocument_unfold _ _ _ _ _ Hg) in *. cbv zeta in *. simpl in *.
  eexists. split; [reflexivity|]. split; [exact Hst|].
  repeat split. eexists. split; [apply In_values_set|]. repeat split.
Qed.

Lemma C9_update_keeps_owner_witness :
  JSMap.get (documents after_create) 1 <> None /\
  exists ud, fst (updateDocument 1 retitle 5 after_create) = Some ud /\ doc_createdBy ud = 0.
Proof.
  split; [vm_compute; discriminate|].
  destruct (JSMap.get (documents after_create) 1) as [doc|] eqn:Hg; [|discriminate].
  destruct (C9_update_keeps_owner 1 retitle 5 after_create doc Hg) as (ud & Hf & _ & _ & Hc & _).
  exists ud. split; [exact Hf|]. rewrite Hc. vm_compute in Hg. injection Hg as <-. reflexivity.
Defined.

(** ** Substring search *)

Definition substring (q s : string) : Prop :=
  exists pre post, s = (pre ++ q ++ post)%string.

Lemma prefix_spec q s : String.prefix q s = true <-> exists post, s = (q ++ post)%string.
Proof.
  revert s; induction q as [|c q IH]; intros s; simpl.
  - split; [intros _; exists s; reflexivity|intros _; destruct s; reflexivity].
  - destruct s as [|c' s]; simpl.
    + split; [discriminate|intros [post E]; discriminate E].
    + destruct (ascii_dec c c') as [<-|Hne].
      * rewrite IH. split; intros [post E]; exists post; [rewrite E|injection E]; auto.
      * split; [discriminate|intros [post E]; injection E; intros; congruence].
Qed.

Lemma includes_unfold s q :
  includes s q = if String.prefix q s then true
                 else match s with EmptyString => false | String _ t => includes t q end.
Proof. destruct s; reflexivity. Qed.

Lemma includes_spec s q : includes s q = true <-> substring q s.
Proof.
  unfold substring. induction s as [|c t IH]; rewrite includes_unfold.
  - destruct (String.prefix q EmptyString) eqn:Hp.
    + split; [intros _|reflexivity]. apply prefix_spec in Hp as [post E].
      exists EmptyString, post. exact E.
    + split; [discriminate|]. intros [pre [post E]]. exfalso.
      destruct pre; [|discriminate E]. simpl in E.
      assert (Hp' : String.prefix q EmptyString = true) by (apply prefix_spec; exists post; exact E).
      congruence.
  - destruct (String.prefix q (String c t)) eqn:Hp.
    + split; [intros _|reflexivity]. apply prefix_spec in Hp as [post E].
      exists EmptyString, post. exact E.
    + rewrite IH. split.
      * intros [pre [post E]]. exists (String c pre), post. rewrite E. reflexivity.
      * intros [pre [post E]]. destruct pre as [|c0 pre].
        -- exfalso. assert (Hp' : String.prefix q (String c t) = true)
             by (apply prefix_spec; exists post; exact E). congruence.
        -- injection E as _ E. exists pre, post. exact E.
Qed.

Lemma substring_empty_inv q : substring q EmptyString -> q = EmptyString.
Proof.
  intros [pre [post E]]. destruct pre; [|discriminate E]. destruct q; [reflexivity|discriminate E].
Qed.

Lemma includes_empty s : includes s EmptyString = true.
Proof. destruct s; reflexivity. Qed.

(** What C5 asks for: the lower-cased query occurs in the lower-cased title,
    content, summary (when present) or some tag. *)
Definition spec_match (query : string) (d : DocumentWithUser) : Prop :=
  let q := toLowerCase query in
  substring q (toLowerCase (dw_title d)) \/ substring q (toLowerCase (dw_content d)) \/
  (exists sm, dw_summary d = Some sm /\ substring q (toLowerCase sm)) \/
  (exists ts t, dw_tags d = Some ts /\ In t ts /\ substring q (toLowerCase t)).

Lemma search_hit_spec query d :
  search_hit (toLowerCase query) d = true <-> spec_match query d.
Proof.
  unfold search_hit, spec_match. set (q := toLowerCase query).
  rewrite !orb_true_iff, !includes_spec. split.
  - intros [[[H|H]|H]|H]; [left; exact H|right; left; exact H| |].
    + destruct (dw_summary d) as [sm|]; [|discriminate H].
      apply andb_true_iff in H as [_ H]. apply includes_spec in H.
      right; right; left. exists sm; split; [reflexivity|exact H].
    + destruct (dw_tags d) as [ts|]; [|discriminate H].
      apply existsb_exists in H as [t [Ht H]]. apply includes_spec in H.
      right; right; right. exists ts, t. auto.
  - intros [H|[H|[[sm [Es H]]|[ts [t [Et [Ht H]]]]]]].
    + left; left; left; exact H.
    + left; left; right; exact H.
    + rewrite Es. unfold truthy_string.
      destruct (String.eqb sm EmptyString) eqn:E0.
      * apply String.eqb_eq in E0; subst sm. simpl in H. apply substring_empty_inv in H.
        left; left; left. rewrite H. apply includes_spec, includes_empty.
      * left; right. simpl. apply includes_spec, H.
    + right. rewrite Et. apply existsb_exists. exists t. split; [exact Ht|].
      apply includes_spec, H.
Qed.

(** ** C5 *)

(** C5: [searchDocuments query] keeps exactly the elements of [getDocuments]
    in which the lower-cased query occurs in the lower-cased title, content,
    summary or some tag, in the order [getDocuments] returns them, without
    changing the store; two queries with the same lower-case form give the
    same result, so the match ignores case. *)
Theorem C5_search_is_filter_of_list query s :
  (exists sel, searchDocuments query s = (filter sel (fst (getDocuments s)), s) /\
               forall d, sel d = true <-> spec_match query d) /\
  (forall query', toLowerCase query' = toLowerCase query ->
                  searchDocuments query' s = searchDocuments query s).
Proof.
  split.
  - exists (search_hit (toLowerCase query)). split; [reflexivity|]. apply search_hit_spec.
  - intros query' E. unfold searchDocuments, bind, ret. simpl. rewrite E. reflexivity.
Qed.

(** The scenario of the spec: a document titled "Release Notes" tagged
    "beta" is found by "BETA" and by "release", not by "gamma". *)
Definition release_notes_store : Store :=
  run_ops [OpCreateUser alice;
           OpCreateDocument (mkInsertDocument "Release Notes" "Changes." None
                               (Some (Some ["beta"]))) 0] (init 0%Z).

Example search_release_notes :
  map dw_title (fst (searchDocuments "BETA" release_notes_store)) = ["Release Notes"] /\
  map dw_title (fst (searchDocuments "release" release_notes_store)) = ["Release Notes"] /\
  fst (searchDocuments "gamma" release_notes_store) = [].
Proof. vm_compute. repeat split. Qed.

(** ** Sorted lists *)

Lemma StronglySorted_app_l {A} (R : A -> A -> Prop) l1 l2 :
  StronglySorted R (l1 ++ l2) -> StronglySorted R l1.
Proof.
  induction l1 as [|a t IH]; simpl; intros H; [constructor|].
  inversion H as [|? ? Ht Ha]; subst. constructor; [exact (IH Ht)|].
  rewrite Forall_forall in *. intros x Hx. apply Ha, in_or_app; left; exact Hx.
Qed.

Lemma StronglySorted_filter {A} (R : A -> A -> Prop) (f : A -> bool) l :
  StronglySorted R l -> StronglySorted R (filter f l).
Proof.
  induction l as [|a t IH]; simpl; intros H; [constructor|].
  inversion H as [|? ? Ht Ha]; subst. destruct (f a); [|exact (IH Ht)].
  constructor; [exact (IH Ht)|]. rewrite Forall_forall in *.
  intros x Hx. apply filter_In in Hx as [Hx _]. exact (Ha x Hx).
Qed.

Lemma Forall2_In_r {A B} (P : A -> B -> Prop) l1 l2 y :
  Forall2 P l1 l2 -> In y l2 -> exists x, In x l1 /\ P x y.
Proof.
  induction 1 as [|x y' t1 t2 Hxy _ IH]; simpl; [intros []|].
  intros [<-|Hy]; [exists x; auto|destruct (IH Hy) as [x' [Hx' Hp]]; exists x'; auto].
Qed.

Lemma StronglySorted_Forall2 {A B} (P : A -> B -> Prop) (ka : A -> Z) (kb : B -> Z) l1 l2 :
  (forall a b, P a b -> kb b = ka a) -> Forall2 P l1 l2 ->
  StronglySorted (desc ka) l1 -> StronglySorted (desc kb) l2.
Proof.
  intros Hk H. induction H as [|a b t1 t2 Hab Hrest IH]; intros Hs; [constructor|].
  inversion Hs as [|? ? Ht Ha]; subst. constructor; [exact (IH Ht)|].
  apply Forall_forall. intros y Hy. destruct (Forall2_In_r _ _ _ _ Hrest Hy) as [x [Hx Hp]].
  rewrite Forall_forall in Ha. specialize (Ha x Hx). unfold desc in *.
  rewrite (Hk _ _ Hab), (Hk _ _ Hp). exact Ha.
Qed.

(** ** C6 *)

Lemma join_activities_Forall2 s top :
  Forall2 (fun a r => exists u, JSMap.get (users s) (act_userId a) = Some u /\
             r = mkActivityWithUser (act_id a) (act_type a) (act_documentId a) (act_userId a)
                   (act_description a) (act_createdAt a) u
                   (match act_documentId a with
                    | Some d => JSMap.get (documents s) d
                    | None => None
                    end))
          (filter (fun a => match JSMap.get (users s) (act_userId a) with
                            | Some _ => true | None => false end) top)
          (flat_map (join_activity s) top).
Proof.
  induction top as [|a t IH]; simpl; [constructor|].
  unfold join_activity at 1. destruct (JSMap.get (users s) (act_userId a)) as [u|] eqn:Hu.
  - simpl. constructor; [exists u; split; [exact Hu|reflexivity]|exact IH].
  - exact IH.
Qed.

(** C6: for a limit [n >= 0], [getRecentActivities n] sorts all activities
    newest first (stably), takes the first [n] of them, and returns those
    whose user resolves, in that order, each joined with its user and (when it
    has a document reference) its document; those whose user does not resolve
    are left out, with no error. *)
Theorem C6_recent_activities n s :
  (0 <= n)%Z ->
  let sorted := sort_desc act_createdAt (JSMap.values (activities s)) in
  let top := firstn (Z.to_nat n) sorted in
  let res := fst (getRecentActivities (Some n) s) in
  snd (getRecentActivities (Some n) s) = s /\
  Permutation sorted (JSMap.values (activities s)) /\
  StronglySorted (desc act_createdAt) top /\
  length top = Nat.min (Z.to_nat n) (length (JSMap.values (activities s))) /\
  (forall x y, In x top -> In y (skipn (Z.to_nat n) sorted) ->
     (act_createdAt y <= act_createdAt x)%Z) /\
  Forall2 (fun a r => exists u, JSMap.get (users s) (act_userId a) = Some u /\
             r = mkActivityWithUser (act_id a) (act_type a) (act_documentId a) (act_userId a)
                   (act_description a) (act_createdAt a) u
                   (match act_documentId a with
                    | Some d => JSMap.get (documents s) d
                    | None => None
                    end))
          (filter (fun a => match JSMap.get (users s) (act_userId a) with
                            | Some _ => true | None => false end) top)
          res /\
  StronglySorted (desc aw_createdAt) res.
Proof.
  intros Hn sorted top res.
  assert (Hres : getRecentActivities (Some n) s = (flat_map (join_activity s) top, s)).
  { unfold getRecentActivities, bind, gets, ret, slice0. simpl.
    replace (n <? 0)%Z with false by (symmetry; apply Z.ltb_ge; exact Hn). reflexivity. }
  assert (Hp : Permutation sorted (JSMap.values (activities s))) by apply sort_desc_perm.
  assert (Hs : StronglySorted (desc act_createdAt) sorted) by apply sort_desc_sorted.
  assert (Htop : StronglySorted (desc act_createdAt) top).
  { apply (StronglySorted_app_l _ _ (skipn (Z.to_nat n) sorted)).
    unfold top. rewrite firstn_skipn. exact Hs. }
  assert (HF := join_activities_Forall2 s top).
  unfold res. rewrite Hres. simpl.
  split; [reflexivity|]. split; [exact Hp|]. split; [exact Htop|].
  split; [unfold top; rewrite length_firstn, (Permutation_length Hp); reflexivity|].
  split.
  - intros x y Hx Hy. apply (sorted_app_desc act_createdAt top (skipn (Z.to_nat n) sorted));
      [unfold top; rewrite firstn_skipn; exact Hs|exact Hx|exact Hy].
  - split; [exact HF|].
    eapply StronglySorted_Forall2; [|exact HF|apply StronglySorted_filter, Htop].
    intros a b [u [_ ->]]. reflexivity.
Qed.

Lemma C6_recent_activities_witness :
  (0 <= 10)%Z /\
  length (fst (getRecentActivities (Some 10%Z) (run_ops scenario_ops (init 0%Z)))) = 2.
Proof.
  split; [lia|].
  destruct (C6_recent_activities 10 (run_ops scenario_ops (init 0%Z)) ltac:(lia))
    as (_ & _ & _ & _ & _ & HF & _).
  rewrite <- (Forall2_length HF). vm_compute. reflexivity.
Defined.

(** ** C8 *)

(** C8: [getDocuments] changes nothing and returns every stored document whose
    author resolves, joined with that author, sorted by [updatedAt] newest
    first: of two results with different [updatedAt], the more recently
    updated one comes first. *)
Theorem C8_list_sorted_by_updatedAt s :
  snd (getDocuments s) = s /\
  let res := fst (getDocuments s) in
  Permutation res (join_authors s (JSMap.values (documents s))) /\
  (forall r, In r res <-> exists d u, In d (JSMap.values (documents s)) /\
       JSMap.get (users s) (doc_createdBy d) = Some u /\ r = with_user d u) /\
  StronglySorted (desc dw_updatedAt) res /\
  (forall x y, In x res -> In y res -> (dw_updatedAt y < dw_updatedAt x)%Z ->
     exists l1 l2 l3, res = l1 ++ x :: l2 ++ y :: l3).
Proof.
  split; [reflexivity|]. intros res.
  assert (Hp : Permutation res (join_authors s (JSMap.values (documents s))))
    by apply sort_desc_perm.
  assert (Hs : StronglySorted (desc dw_updatedAt) res) by apply sort_desc_sorted.
  split; [exact Hp|]. split; [|split; [exact Hs|]].
  - intros r. split.
    + intros Hr. apply (Permutation_in _ Hp) in Hr. unfold join_authors in Hr.
      apply in_flat_map in Hr as [d [Hd Hr]].
      destruct (JSMap.get (users s) (doc_createdBy d)) as [u|] eqn:Hu; [|destruct Hr].
      destruct Hr as [<-|[]]. exists d, u. auto.
    + intros (d & u & Hd & Hu & ->). apply (Permutation_in _ (Permutation_sym Hp)).
      unfold join_authors. apply in_flat_map. exists d. rewrite Hu. split; [exact Hd|left; reflexivity].
  - intros x y Hx Hy Hlt. apply in_split in Hx as [l1 [l2' E]].
    rewrite E in Hy, Hs. apply in_app_or in Hy as [Hy|[<-|Hy]].
    + exfalso. assert (Hle := sorted_app_desc dw_updatedAt l1 (x :: l2') y x Hs Hy
                                (or_introl eq_refl)). lia.
    + lia.
    + apply in_split in Hy as [l2 [l3 E2]]. exists l1, l2, l3. rewrite E, E2. reflexivity.
Qed.

(** ** C10 *)

Definition activities_typed (s : Store) : Prop :=
  forall a, In a (JSMap.values (activities s)) ->
            act_type a = "created" \/ act_type a = "updated".

Lemma In_values_set_inv {V} (m : list (uuid * V)) k v w :
  In w (JSMap.values (JSMap.set m k v)) -> w = v \/ In w (JSMap.values m).
Proof.
  induction m as [|[k0 v0] t IH]; simpl; [intros [<-|[]]; left; reflexivity|].
  destruct (Nat.eqb k0 k); simpl; intros [H|H]; auto.
  destruct (IH H); auto.
Qed.

Lemma activities_typed_step o s :
  not_raw_activity_op o = true -> activities_typed s -> activities_typed (run_op o s).
Proof.
  intros Ho Hs. destruct o as [iu|ins a|id u e|id|iv|ia|dt]; unfold run_op.
  - destruct (createUser_unfold iu s) as [us E]; rewrite E. exact Hs.
  - rewrite createDocument_unfold. intros x Hx. simpl in Hx.
    apply In_values_set_inv in Hx as [->|Hx]; [left; reflexivity|exact (Hs x Hx)].
  - destruct (JSMap.get (documents s) id) as [doc|] eqn:Hg.
    + rewrite (updateDocument_unfold _ _ _ _ _ Hg). intros x Hx. simpl in Hx.
      apply In_values_set_inv in Hx as [->|Hx]; [right; reflexivity|exact (Hs x Hx)].
    + rewrite (updateDocument_none _ _ _ _ Hg). exact Hs.
  - unfold deleteDocument, bind, gets, modify, ret.
    destruct (JSMap.get (documents s) id); [|exact Hs].
    intros x Hx. simpl in Hx. apply (fold_delete_values (activity_refers id)) in Hx.
    exact (Hs x (proj1 Hx)).
  - destruct (createDocumentVersion_unfold iv s) as [row E]; rewrite E. exact Hs.
  - discriminate Ho.
  - destruct s; exact Hs.
Qed.

(** Every state reachable from an empty store by any operations. *)
Definition C10_claim : Prop :=
  forall t0 ops, activities_typed (run_ops ops (init t0)).

(** C10 (counterexample): the store's public [createActivity] records any
    type it is given, ["deleted"] included. *)
Lemma C10_raw_createActivity_deleted : ~ C10_claim.
Proof.
  unfold C10_claim, activities_typed. intros H.
  destruct (H 0%Z [OpCreateActivity (mkInsertActivity "deleted" None 0 "Deleted document")]
              _ (or_introl eq_refl)) as [E|E]; discriminate E.
Qed.

(** C10 (amended): through any sequence of operations other than a direct
    call of [createActivity] (user and document creation, updates, deletions
    and version rows), every stored activity has type ["created"] or
    ["updated"]: in particular [deleteDocument] records no ["deleted"]
    activity. *)
Theorem C10_no_deleted_activity t0 ops :
  forallb not_raw_activity_op ops = true -> activities_typed (run_ops ops (init t0)).
Proof.
  assert (G : forall s, activities_typed s ->
            forallb not_raw_activity_op ops = true -> activities_typed (run_ops ops s)).
  { induction ops as [|o t IH]; intros s Hs Hops; simpl in *; [exact Hs|].
    apply andb_true_iff in Hops as [Ho Ht]. apply IH; [|exact Ht].
    apply activities_typed_step; assumption. }
  intros Hops. apply G; [intros a []|exact Hops].
Qed.

Lemma C10_no_deleted_activity_witness :
  forallb not_raw_activity_op (scenario_ops ++ [OpDeleteDocument 1]) = true /\
  activities_typed (run_ops (scenario_ops ++ [OpDeleteDocument 1]) (init 0%Z)).
Proof.
  split; [reflexivity|]. apply C10_no_deleted_activity. reflexivity.
Defined.

(** * Further operations of the store *)

(** [Array.from(this.users.values()).find(user => user.email === email)] *)
Definition getUserByEmail (email : string) : M (option User) :=
  gets (fun s => find (fun u => String.eqb (user_email u) email) (JSMap.values (users s))).


Definition no_updates : PartialInsertDocument := mkPartialInsertDocument None None None None.

Lemma find_first {A} (f : A -> bool) l :
  match find f l with
  | Some x => f x = true /\ exists pre post, l = pre ++ x :: post /\ Forall (fun y => f y = false) pre
  | None => forall x, In x l -> f x = false
  end.
Proof.
  induction l as [|a t IH]; simpl; [intros _ []|].
  destruct (f a) eqn:Ha.
  - split; [exact Ha|]. exists [], t. split; [reflexivity|constructor].
  - destruct (find f t) as [x|].
    + destruct IH as [Hx [pre [post [E Hpre]]]]. split; [exact Hx|].
      exists (a :: pre), post. rewrite E. split; [reflexivity|constructor; assumption].
    + intros x [<-|Hx]; [exact Ha|exact (IH x Hx)].
Qed.

(** getUserByEmail returns the first user, in creation order, whose email is
    exactly the given one, and nothing when no user has it. *)
Theorem getUserByEmail_first_match email s :
  snd (getUserByEmail email s) = s /\
  match fst (getUserByEmail email s) with
  | Some u => user_email u = email /\
      exists pre post, JSMap.values (users s) = pre ++ u :: post /\
                       Forall (fun v => user_email v <> email) pre
  | None => forall u, In u (JSMap.values (users s)) -> user_email u <> email
  end.
Proof.
  split; [reflexivity|]. unfold getUserByEmail, gets; simpl.
  pose proof (find_first (fun u => String.eqb (user_email u) email) (JSMap.values (users s))) as H.
  destruct (find _ _) as [u|].
  - destruct H as [Hu [pre [post [E Hpre]]]]. split; [apply String.eqb_eq, Hu|].
    exists pre, post. split; [exact E|]. eapply Forall_impl; [|exact Hpre].
    simpl; intros v Hv Ev. apply String.eqb_neq in Hv. contradiction.
  - intros u Hu Eu. specialize (H u Hu). simpl in H. rewrite Eu, String.eqb_refl in H.
    discriminate H.
Qed.

(** createUser stores the new user under a fresh id, where getUser finds it;
    the role defaults to "user" when omitted or empty and is kept otherwise;
    both timestamps are now; the other tables are untouched. *)
Theorem createUser_effect iu s :
  fresh_ok s ->
  let u := fst (createUser iu s) in
  let s' := snd (createUser iu s) in
  JSMap.get (users s) (user_id u) = None /\
  users s' = users s ++ [(user_id u, u)] /\
  fst (getUser (user_id u) s') = Some u /\
  ((iu_role iu = None \/ iu_role iu = Some EmptyString) -> user_role u = "user") /\
  (forall r, iu_role iu = Some r -> r <> EmptyString -> user_role u = r) /\
  user_email u = iu_email iu /\ user_password u = iu_password iu /\
  user_createdAt u = clock s /\ user_updatedAt u = clock s /\
  documents s' = documents s /\ documentVersions s' = documentVersions s /\
  activities s' = activities s.
Proof.
  intros (Hu & _). cbv [createUser bind randomUUID new_Date gets modify ret set_users getUser].
  simpl. assert (F := get_below _ _ Hu).
  split; [exact F|]. split; [apply set_fresh, F|]. split.
  - rewrite get_set, Nat.eqb_refl. reflexivity.
  - split; [|split].
    + intros [E|E]; rewrite E; reflexivity.
    + intros r E Hr. rewrite E. unfold truthy_string.
      apply String.eqb_neq in Hr. rewrite Hr. reflexivity.
    + repeat split.
Qed.

Lemma createUser_effect_witness :
  fresh_ok (init 0%Z) /\ user_role (fst (createUser alice (init 0%Z))) = "user".
Proof.
  split; [repeat constructor|].
  destruct (createUser_effect alice (init 0%Z) ltac:(repeat constructor))
    as (_ & _ & _ & H & _). apply H. left; reflexivity.
Defined.

(** getDocumentVersions returns exactly the version rows of the document,
    ordered by version number, highest first, and changes nothing. *)
Theorem getDocumentVersions_spec id s :
  snd (getDocumentVersions id s) = s /\
  Permutation (fst (getDocumentVersions id s)) (rows_of id s) /\
  StronglySorted (desc (fun v => Z.of_nat (ver_version v))) (fst (getDocumentVersions id s)).
Proof.
  split; [reflexivity|]. split; [apply sort_desc_perm|apply sort_desc_sorted].
Qed.

(** ** Version lists of reachable documents *)







(** ** Creation, lookup and deletion *)

(** Creating a document by an existing user and then reading it back with
    getDocument gives the document joined with its author and exactly one
    version row: version 1, by the author, ["Initial version"], holding the
    document's fields as createDocumentVersion stores them. *)
Theorem createDocument_then_getDocument ins a s u :
  versions_inv s -> JSMap.get (users s) a = Some u ->
  let d := fst (createDocument ins a s) in
  let s' := snd (createDocument ins a s) in
  exists row,
    fst (getDocument (doc_id d) s') = Some (mkDocumentWithDetails (with_user d u) [row]) /\
    ver_version row = 1 /\ ver_createdBy row = a /\
    ver_changeDescription row = Some "Initial version" /\ snapshot_of d row /\
    doc_version d = 1 /\ doc_createdAt d = clock s /\ doc_updatedAt d = clock s.
Proof.
  intros (Hf & Hv & _) Hu. pose proof Hf as (_ & _ & Hve & _).
  assert (Fve : JSMap.get (documentVersions s) (S (next_uuid s)) = None).
  { apply get_below. apply (keys_below_mono (next_uuid s)); [lia|exact Hve]. }
  rewrite createDocument_unfold. cbv zeta. simpl fst; simpl snd.
  unfold getDocument, bind, gets, getUser, getDocumentVersions, ret. simpl.
  rewrite get_set, Nat.eqb_refl. simpl. rewrite Hu, (set_fresh _ _ _ Fve). cbn [documentVersions fst]. rewrite rows_append, (rows_none _ _ Hv).
  simpl. rewrite Nat.eqb_refl. simpl. eexists.
  split; [reflexivity|]. repeat split.
Qed.

(** createDocumentVersion appends the row under a fresh id, getDocumentVersions
    then lists it for its document; an omitted, null or empty summary or
    change description is stored as null, omitted or null tags as [[]];
    version, author and [createdAt = now] are as given; the other tables are
    untouched. *)
Theorem createDocumentVersion_effect iv s :
  let v := fst (createDocumentVersion iv s) in
  let s' := snd (createDocumentVersion iv s) in
  fresh_ok s ->
  documentVersions s' = documentVersions s ++ [(ver_id v, v)] /\
  In v (fst (getDocumentVersions (iv_documentId iv) s')) /\
  ((iv_summary iv = None \/ iv_summary iv = Some None \/ iv_summary iv = Some (Some EmptyString)) ->
     ver_summary v = None) /\
  (forall x, iv_summary iv = Some (Some x) -> x <> EmptyString -> ver_summary v = Some x) /\
  ((iv_tags iv = None \/ iv_tags iv = Some None) -> ver_tags v = Some []) /\
  ((iv_changeDescription iv = None \/ iv_changeDescription iv = Some None \/
    iv_changeDescription iv = Some (Some EmptyString)) -> ver_changeDescription v = None) /\
  ver_version v = iv_version iv /\ ver_createdBy v = iv_createdBy iv /\ ver_createdAt v = clock s /\
  users s' = users s /\ documents s' = documents s /\ activities s' = activities s.
Proof.
  intros v s' (_ & _ & Hve & _).
  cbv [v s' createDocumentVersion bind randomUUID new_Date gets modify ret set_documentVersions].
  simpl. split; [apply set_fresh, get_below, Hve|]. split.
  - unfold getDocumentVersions, gets; simpl.
    apply (Permutation_in _ (Permutation_sym (sort_desc_perm _ _))).
    apply filter_In. split; [apply In_values_set|apply Nat.eqb_refl].
  - unfold or_null_string, or_empty_tags.
    split; [intros [E|[E|E]]; rewrite E; reflexivity|].
    split; [intros x E Hx; rewrite E; apply String.eqb_neq in Hx; rewrite Hx; reflexivity|].
    split; [intros [E|E]; rewrite E; reflexivity|].
    split; [intros [E|[E|E]]; rewrite E; reflexivity|].
    repeat split.
Qed.

Lemma deleteDocument_none id s :
  JSMap.get (documents s) id = None -> deleteDocument id s = (false, s).
Proof. intros H. unfold deleteDocument, bind, gets. rewrite H. reflexivity. Qed.

Lemma getDocument_none id s :
  JSMap.get (documents s) id = None -> getDocument id s = (None, s).
Proof. intros H. unfold getDocument, bind, gets. rewrite H. reflexivity. Qed.

(** After deleteDocument (whether or not the document existed) the document is
    absent: deleting it again returns false, updating it returns nothing and
    getDocument returns nothing, each leaving the store unchanged. *)
Theorem deleteDocument_then_absent id u e s :
  let s' := snd (deleteDocument id s) in
  JSMap.get (documents s') id = None /\
  deleteDocument id s' = (false, s') /\
  updateDocument id u e s' = (None, s') /\
  getDocument id s' = (None, s').
Proof.
  intros s'.
  assert (G : JSMap.get (documents s') id = None).
  { subst s'. destruct (JSMap.get (documents s) id) as [d|] eqn:Hg.
    - unfold deleteDocument, bind, gets, modify, ret. rewrite Hg. simpl. apply get_delete.
    - rewrite (deleteDocument_none _ _ Hg). exact Hg. }
  split; [exact G|]. split; [apply deleteDocument_none, G|].
  split; [apply updateDocument_none, G|apply getDocument_none, G].
Qed.

(** Updating one document leaves every other document, the version rows of
    every other document, and the users unchanged. *)
Theorem updateDocument_frame id u e s k :
  fresh_ok s -> k <> id ->
  let s' := snd (updateDocument id u e s) in
  JSMap.get (documents s') k = JSMap.get (documents s) k /\
  rows_of k s' = rows_of k s /\ users s' = users s.
Proof.
  intros (_ & _ & Hve & _) Hk s'. subst s'.
  destruct (JSMap.get (documents s) id) as [doc|] eqn:Hg.
  2: rewrite (updateDocument_none _ _ _ _ Hg); repeat split.
  rewrite (updateDocument_unfold _ _ _ _ _ Hg). cbv zeta. simpl.
  rewrite get_set. apply Nat.eqb_neq in Hk. rewrite Nat.eqb_sym, Hk.
  split; [reflexivity|]. split; [|reflexivity].
  unfold rows_of; simpl. rewrite (set_fresh _ _ _ (get_below _ _ Hve)), rows_append. simpl.
  rewrite Nat.eqb_sym, Hk, app_nil_r. reflexivity.
Qed.

(** * The HTTP routes *)

(** [req.user]: the payload of a verified token. *)
Record AuthUser := mkAuthUser {
  au_id : uuid; au_email : string; au_name : string; au_role : string }.

(** The AI outcome of [performSemanticSearch]: the call or [JSON.parse]
    throws, the response has no text, or it parses to an array of
    [{index, relevance}] (integral numbers). *)
Inductive AIOutcome :=
| AIFailed
| AINoText
| AIResults (results : list (Z * Z)).

(** An element of the array [performSemanticSearch] returns:
    [{ ...documents[index], relevance }] ([documents[index]] may be
    [undefined]), or a document of the fallback filter. *)
Inductive SearchItem :=
| Ranked (doc : option DocumentWithUser) (relevance : Z)
| Plain (doc : DocumentWithUser).

(** Response bodies; [errors: error.errors] of a ZodError is not
    modelled. *)
Inductive Body :=
| BMessage (message : string)
| BInvalid (message : string)
| BAuth (token : string) (user : AuthUser)
| BDocument (document : option Document)
| BDetails (document : DocumentWithDetails)
| BDocs (documents : list DocumentWithUser)
| BItems (results : list SearchItem).

Record Response := mkResponse { res_status : nat; res_body : Body }.

Definition reply (status : nat) (b : Body) : M Response := ret (mkResponse status b).

(** [{ id, email, name, role }] of a stored user. *)
Definition public_user (u : User) : AuthUser :=
  mkAuthUser (user_id u) (user_email u) (user_name u) (user_role u).

Section Routes.
(** [jwt.sign] with the server's secret. *)
Variable generateToken : AuthUser -> string.

(** POST /api/auth/register.  [data] is [registerSchema.parse(req.body)]
    ([None]: a ZodError); [hashedPassword] is what [bcrypt.hash] returned
    for [data.password]. *)
Definition register (data : option InsertUser) (hashedPassword : string) : M Response :=
  match data with
  | None => reply 400 (BInvalid "Invalid input")
  | Some data =>
      existingUser <- getUserByEmail (iu_email data) ;;
      match existingUser with
      | Some _ => reply 400 (BMessage "User already exists")
      | None =>
          user <- createUser (mkInsertUser (iu_email data) hashedPassword
                                (iu_name data) (iu_role data)) ;;
          let token := generateToken (public_user user) in
          reply 200 (BAuth token (public_user user))
      end
  end.
End Routes.

(** [document.createdBy.id !== req.user!.id && req.user!.role !== "admin"] *)
Definition permission_denied (document : DocumentWithDetails) (user : AuthUser) : bool :=
  negb (Nat.eqb (user_id (dw_createdBy (dd_doc document))) (au_id user)) &&
  negb (String.eqb (au_role user) "admin").

(** GET /api/documents/:id *)
Definition get_document_route (id : uuid) : M Response :=
  document <- getDocument id ;;
  match document with
  | None => reply 404 (BMessage "Document not found")
  | Some document => reply 200 (BDetails document)
  end.

(** PUT /api/documents/:id.  [data] is
    [insertDocumentSchema.partial().parse(req.body)] ([None]: a ZodError),
    evaluated only after the permission check. *)
Definition put_document_route (user : AuthUser) (id : uuid)
  (data : option PartialInsertDocument) : M Response :=
  document <- getDocument id ;;
  match document with
  | None => reply 404 (BMessage "Document not found")
  | Some document =>
      if permission_denied document user then reply 403 (BMessage "Permission denied")
      else match data with
           | None => reply 400 (BInvalid "Invalid input")
           | Some data =>
               updatedDocument <- updateDocument id data (au_id user) ;;
               reply 200 (BDocument updatedDocument)
           end
  end.

(** DELETE /api/documents/:id *)
Definition delete_document_route (user : AuthUser) (id : uuid) : M Response :=
  document <- getDocument id ;;
  match document with
  | None => reply 404 (BMessage "Document not found")
  | Some document =>
      if permission_denied document user then reply 403 (BMessage "Permission denied")
      else success <- deleteDocument id ;;
           if success then reply 200 (BMessage "Document deleted successfully")
           else reply 500 (BMessage "Failed to delete document")
  end.



Lemma getUserByEmail_found email s u :
  In u (JSMap.values (users s)) -> user_email u = email ->
  exists v, getUserByEmail email s = (Some v, s).
Proof.
  intros Hin He. unfold getUserByEmail, gets.
  pose proof (find_first (fun u => String.eqb (user_email u) email) (JSMap.values (users s))) as H.
  destruct (find _ _) as [v|]; [eexists; reflexivity|].
  specialize (H u Hin). simpl in H. rewrite He, String.eqb_refl in H. discriminate H.
Qed.

Lemma getUserByEmail_absent email s :
  (forall u, In u (JSMap.values (users s)) -> user_email u <> email) ->
  getUserByEmail email s = (None, s).
Proof.
  intros Hn. unfold getUserByEmail, gets.
  pose proof (find_first (fun u => String.eqb (user_email u) email) (JSMap.values (users s))) as H.
  destruct (find _ _) as [v|]; [|reflexivity].
  destruct H as [Hv [pre [post [E _]]]]. exfalso. apply (Hn v).
  - rewrite E. apply in_or_app. right. left. reflexivity.
  - apply String.eqb_eq, Hv.
Qed.

Lemma createUser_fresh iu s : fresh_ok s ->
  fresh_ok (snd (createUser iu s)) /\
  users (snd (createUser iu s)) = users s ++ [(next_uuid s, fst (createUser iu s))].
Proof.
  intros (Hu & Hdo & Hve & Ha).
  cbv [createUser bind randomUUID new_Date gets modify ret set_users]. simpl.
  rewrite (set_fresh _ _ _ (get_below _ _ Hu)). split; [|reflexivity].
  unfold fresh_ok; simpl. repeat split.
  - apply keys_below_app; [apply (keys_below_mono (next_uuid s)); [lia|exact Hu]|lia].
  - apply (keys_below_mono (next_uuid s)); [lia|exact Hdo].
  - apply (keys_below_mono (next_uuid s)); [lia|exact Hve].
  - apply (keys_below_mono (next_uuid s)); [lia|exact Ha].
Qed.

(** Registering with an email some stored user already has answers 400
    ["User already exists"] and leaves the store unchanged. *)
Theorem register_existing_email generateToken data hashed s u :
  In u (JSMap.values (users s)) -> user_email u = iu_email data ->
  register generateToken (Some data) hashed s =
    (mkResponse 400 (BMessage "User already exists"), s).
Proof.
  intros Hin He. destruct (getUserByEmail_found _ _ _ Hin He) as [v Ev].
  unfold register, bind. rewrite Ev. reflexivity.
Qed.

(** Registering with an email no stored user has creates the user with the
    hashed password, appends it to the users, and answers 200 with the token
    and the public fields; a non-empty role in the request body is kept, so a
    client can register itself as ["admin"]; without one the role is
    ["user"]. *)
Theorem register_new_email generateToken data hashed s :
  fresh_ok s ->
  (forall u, In u (JSMap.values (users s)) -> user_email u <> iu_email data) ->
  let r := createUser (mkInsertUser (iu_email data) hashed (iu_name data) (iu_role data)) s in
  let u := fst r in
  register generateToken (Some data) hashed s =
    (mkResponse 200 (BAuth (generateToken (public_user u)) (public_user u)), snd r) /\
  users (snd r) = users s ++ [(user_id u, u)] /\
  user_email u = iu_email data /\ user_password u = hashed /\
  (forall role, iu_role data = Some role -> role <> EmptyString -> user_role u = role) /\
  ((iu_role data = None \/ iu_role data = Some EmptyString) -> user_role u = "user").
Proof.
  intros Hf Hn r u.
  destruct (createUser_fresh (mkInsertUser (iu_email data) hashed (iu_name data) (iu_role data)) s Hf)
    as [_ Eu].
  split.
  - unfold register, bind. rewrite (getUserByEmail_absent _ _ Hn). subst r u.
    destruct (createUser _ s); reflexivity.
  - split; [exact Eu|]. subst r u.
    cbv [createUser bind randomUUID new_Date gets modify ret set_users]. simpl.
    split; [reflexivity|]. split; [reflexivity|]. split.
    + intros role E Hr. rewrite E. unfold truthy_string.
      apply String.eqb_neq in Hr. rewrite Hr. reflexivity.
    + intros [E|E]; rewrite E; reflexivity.
Qed.


Lemma getDocument_found id s doc author :
  JSMap.get (documents s) id = Some doc -> JSMap.get (users s) (doc_createdBy doc) = Some author ->
  getDocument id s =
    (Some (mkDocumentWithDetails (with_user doc author) (fst (getDocumentVersions id s))), s).
Proof. intros Hd Hu. unfold getDocument, bind, gets, getUser. rewrite Hd. simpl. rewrite Hu. reflexivity. Qed.

Lemma getDocument_orphan id s doc :
  JSMap.get (documents s) id = Some doc -> JSMap.get (users s) (doc_createdBy doc) = None ->
  getDocument id s = (None, s).
Proof. intros Hd Hu. unfold getDocument, bind, gets, getUser. rewrite Hd. simpl. rewrite Hu. reflexivity. Qed.

(** PUT and DELETE on a document by a user who is neither its author nor an
    admin answer 403 ["Permission denied"] and leave the store unchanged,
    whatever the request body. *)
Theorem modify_routes_deny_others user id data s doc author :
  JSMap.get (documents s) id = Some doc -> JSMap.get (users s) (doc_createdBy doc) = Some author ->
  user_id author <> au_id user -> au_role user <> "admin" ->
  put_document_route user id data s = (mkResponse 403 (BMessage "Permission denied"), s) /\
  delete_document_route user id s = (mkResponse 403 (BMessage "Permission denied"), s).
Proof.
  intros Hd Hu Hid Hrole.
  assert (P : permission_denied (mkDocumentWithDetails (with_user doc author)
                                   (fst (getDocumentVersions id s))) user = true).
  { unfold permission_denied; simpl. apply Nat.eqb_neq in Hid. apply String.eqb_neq in Hrole.
    rewrite Hid, Hrole. reflexivity. }
  unfold put_document_route, delete_document_route, bind.
  rewrite (getDocument_found _ _ _ _ Hd Hu), P. split; reflexivity.
Qed.

(** A stored document whose author has no user record cannot be read,
    edited or deleted: GET, PUT and DELETE answer 404 ["Document not found"]
    for every requester, admins included, and leave the store unchanged. *)
Theorem orphan_document_routes_not_found user id data s doc :
  JSMap.get (documents s) id = Some doc -> JSMap.get (users s) (doc_createdBy doc) = None ->
  get_document_route id s = (mkResponse 404 (BMessage "Document not found"), s) /\
  put_document_route user id data s = (mkResponse 404 (BMessage "Document not found"), s) /\
  delete_document_route user id s = (mkResponse 404 (BMessage "Document not found"), s).
Proof.
  intros Hd Hu. unfold get_document_route, put_document_route, delete_document_route, bind.
  rewrite (getDocument_orphan _ _ _ Hd Hu). repeat split.
Qed.

Lemma permission_granted doc author user vs :
  (user_id author = au_id user \/ au_role user = "admin") ->
  permission_denied (mkDocumentWithDetails (with_user doc author) vs) user = false.
Proof.
  unfold permission_denied; simpl. intros [E|E].
  - rewrite E, Nat.eqb_refl. reflexivity.
  - rewrite E. simpl. apply andb_false_r.
Qed.

(** PUT by the author or an admin runs updateDocument with the parsed fields
    and the requester as editor and answers 200 with its result; a body that
    does not parse answers 400 and changes nothing. *)
Theorem put_route_allowed user id data s doc author :
  JSMap.get (documents s) id = Some doc -> JSMap.get (users s) (doc_createdBy doc) = Some author ->
  (user_id author = au_id user \/ au_role user = "admin") ->
  put_document_route user id (Some data) s =
    (mkResponse 200 (BDocument (fst (updateDocument id data (au_id user) s))),
     snd (updateDocument id data (au_id user) s)) /\
  put_document_route user id None s = (mkResponse 400 (BInvalid "Invalid input"), s).
Proof.
  intros Hd Hu Hp. unfold put_document_route, bind.
  rewrite (getDocument_found _ _ _ _ Hd Hu), permission_granted by exact Hp.
  split; [|reflexivity]. destruct (updateDocument id data (au_id user) s); reflexivity.
Qed.

(** DELETE by the author or an admin runs deleteDocument, answers 200
    ["Document deleted successfully"], and the document is gone. *)
Theorem delete_route_allowed user id s doc author :
  JSMap.get (documents s) id = Some doc -> JSMap.get (users s) (doc_createdBy doc) = Some author ->
  (user_id author = au_id user \/ au_role user = "admin") ->
  delete_document_route user id s =
    (mkResponse 200 (BMessage "Document deleted successfully"), snd (deleteDocument id s)) /\
  JSMap.get (documents (snd (deleteDocument id s))) id = None.
Proof.
  intros Hd Hu Hp. unfold delete_document_route, bind.
  rewrite (getDocument_found _ _ _ _ Hd Hu), permission_granted by exact Hp.
  unfold deleteDocument, bind, gets, modify, ret. rewrite Hd. simpl.
  split; [reflexivity|apply get_delete].
Qed.

(** The DELETE route never answers 500: once getDocument found the document,
    deleteDocument reports success. *)
Theorem delete_route_never_500 user id s :
  res_status (fst (delete_document_route user id s)) <> 500.
Proof.
  unfold delete_document_route, bind.
  destruct (JSMap.get (documents s) id) as [doc|] eqn:Hd.
  2: rewrite (getDocument_none _ _ Hd); simpl; discriminate.
  destruct (JSMap.get (users s) (doc_createdBy doc)) as [author|] eqn:Hu.
  2: rewrite (getDocument_orphan _ _ _ Hd Hu); simpl; discriminate.
  rewrite (getDocument_found _ _ _ _ Hd Hu).
  destruct (permission_denied _ user); [simpl; discriminate|].
  unfold deleteDocument, bind, gets, modify, ret. rewrite Hd. simpl. discriminate.
Qed.

(** * Search *)

(** [documents[i]] for an integral [i]. *)
Definition js_index {A} (l : list A) (i : Z) : option A :=
  if (i <? 0)%Z then None else nth_error l (Z.to_nat i).

(** The filter of the fallback branch of [performSemanticSearch]. *)
Definition fallback_hit (lowerQuery : string) (doc : DocumentWithUser) : bool :=
  includes (toLowerCase (dw_title doc)) lowerQuery
  || includes (toLowerCase (dw_content doc)) lowerQuery
  || match dw_summary doc with
     | Some s => truthy_string s && includes (toLowerCase s) lowerQuery
     | None => false
     end.

Definition performSemanticSearch (query : string) (documents : list DocumentWithUser)
  (ai : AIOutcome) : list SearchItem :=
  match ai with
  | AIResults results =>
      let relevantResults :=
        sort_desc snd (filter (fun r => (30 <? snd r)%Z) results) in
      map (fun r => Ranked (js_index documents (fst r)) (snd r)) relevantResults
  | AINoText => []
  | AIFailed =>
      let lowerQuery := toLowerCase query in
      map Plain (filter (fallback_hit lowerQuery) documents)
  end.

(** A value of [req.query]: absent, a string, or an array or object. *)
Inductive QueryValue := QAbsent | QString (s : string) | QOther.

(** GET /api/search *)
Definition search_route (q type : QueryValue) (ai : AIOutcome) : M Response :=
  let type := match type with QAbsent => QString "text" | t => t end in
  match q with
  | QString query =>
      if truthy_string query then
        match type with
        | QString t =>
            if String.eqb t "semantic" then
              allDocuments <- getDocuments ;;
              reply 200 (BItems (performSemanticSearch query allDocuments ai))
            else
              results <- searchDocuments query ;;
              reply 200 (BDocs results)
        | _ =>
            results <- searchDocuments query ;;
            reply 200 (BDocs results)
        end
      else reply 400 (BMessage "Query parameter required")
  | _ => reply 400 (BMessage "Query parameter required")
  end.

Definition item_relevance (it : SearchItem) : Z :=
  match it with Ranked _ r => r | Plain _ => 0 end.

(** The same document without its tags. *)
Definition without_tags (d : DocumentWithUser) : DocumentWithUser :=
  mkDocumentWithUser (dw_id d) (dw_title d) (dw_content d) (dw_summary d) None
    (dw_createdBy d) (dw_createdAt d) (dw_updatedAt d) (dw_version d).


(** The search route answers 400 ["Query parameter required"] when [q] is
    absent, empty or not a string, and changes nothing. *)
Theorem search_route_requires_query q type ai s :
  (q = QAbsent \/ q = QOther \/ q = QString EmptyString) ->
  search_route q type ai s = (mkResponse 400 (BMessage "Query parameter required"), s).
Proof. intros [->|[->| ->]]; reflexivity. Qed.

(** The search route with a non-empty query and any [type] other than exactly
    ["semantic"] (absent included) answers 200 with searchDocuments' result
    and changes nothing. *)
Theorem search_route_text_unless_semantic query type ai s :
  truthy_string query = true -> type <> QString "semantic" ->
  search_route (QString query) type ai s =
    (mkResponse 200 (BDocs (fst (searchDocuments query s))), s).
Proof.
  intros Hq Ht. unfold search_route. rewrite Hq.
  destruct type as [|t|]; try reflexivity.
  destruct (String.eqb t "semantic") eqn:E.
  - apply String.eqb_eq in E. subst t. contradiction.
  - reflexivity.
Qed.

(** When the AI answers, performSemanticSearch returns one item per result
    with relevance above 30 (with its document at that index, if any), every
    item has relevance above 30 and the items are in non-increasing
    relevance. *)
Theorem semantic_search_ranking query docs results :
  let out := performSemanticSearch query docs (AIResults results) in
  Forall (fun it => (30 < item_relevance it)%Z) out /\
  StronglySorted (fun a b => (item_relevance b <= item_relevance a)%Z) out /\
  Permutation out (map (fun r => Ranked (js_index docs (fst r)) (snd r))
                       (filter (fun r => (30 <? snd r)%Z) results)).
Proof.
  intros out. subst out. simpl.
  set (kept := filter (fun r => (30 <? snd r)%Z) results).
  assert (Hp := sort_desc_perm snd kept). assert (Hs := sort_desc_sorted snd kept).
  split; [|split].
  - apply Forall_forall. intros it Hit. apply in_map_iff in Hit as [r [<- Hr]].
    apply (Permutation_in _ Hp) in Hr. unfold kept in Hr. apply filter_In in Hr as [_ Hr].
    simpl. apply Z.ltb_lt, Hr.
  - clear Hp. induction Hs as [|r l Hl IH Hr]; simpl; [constructor|constructor; [exact IH|]].
    apply Forall_forall. intros it Hit. apply in_map_iff in Hit as [r' [<- Hr']].
    rewrite Forall_forall in Hr. exact (Hr r' Hr').
  - apply Permutation_map, Hp.
Qed.

(** When the AI call fails, performSemanticSearch returns the documents the
    literal search would return if they had no tags: the fallback never
    matches a tag, and each of its documents is also a literal-search hit. *)
Theorem semantic_fallback_ignores_tags query docs :
  performSemanticSearch query docs AIFailed =
    map Plain (filter (fun d => search_hit (toLowerCase query) (without_tags d)) docs) /\
  incl (filter (fallback_hit (toLowerCase query)) docs)
       (filter (search_hit (toLowerCase query)) docs).
Proof.
  split.
  - simpl. f_equal. apply filter_ext. intros d. unfold fallback_hit, search_hit; simpl.
    rewrite !orb_false_r. reflexivity.
  - intros d Hd. apply filter_In in Hd as [Hin Hd]. apply filter_In. split; [exact Hin|].
    unfold fallback_hit in Hd. unfold search_hit.
    rewrite Hd. reflexivity.
Qed.

(** * Token check *)

Definition space : ascii := " "%char.

(** [s.split(" ")] *)
Fixpoint split_space (s : string) : list string :=
  match s with
  | EmptyString => [EmptyString]
  | String c t =>
      if Ascii.eqb c space then EmptyString :: split_space t
      else match split_space t with
           | w :: ws => String c w :: ws
           | [] => [String c EmptyString]
           end
  end.

Fixpoint no_space (s : string) : bool :=
  match s with
  | EmptyString => true
  | String c t => negb (Ascii.eqb c space) && no_space t
  end.

Inductive AuthResult :=
| AuthNext (user : AuthUser)
| AuthReject (r : Response).

(** [authenticateToken]; [verifyToken] is [jwt.verify] with the server's
    secret ([None]: it throws). *)
Definition authenticateToken (verifyToken : string -> option AuthUser)
  (authorization : option string) : AuthResult :=
  let token := match authorization with
               | Some authHeader =>
                   if truthy_string authHeader then nth_error (split_space authHeader) 1
                   else Some authHeader
               | None => None
               end in
  match token with
  | Some token =>
      if truthy_string token then
        match verifyToken token with
        | Some user => AuthNext user
        | None => AuthReject (mkResponse 403 (BMessage "Invalid or expired token"))
        end
      else AuthReject (mkResponse 401 (BMessage "Access token required"))
  | None => AuthReject (mkResponse 401 (BMessage "Access token required"))
  end.


Lemma append_empty_r s : (s ++ EmptyString)%string = s.
Proof. induction s as [|c s IH]; simpl; [reflexivity|rewrite IH; reflexivity]. Qed.

Lemma split_space_word w r :
  no_space w = true -> split_space (w ++ String space r)%string = w :: split_space r.
Proof.
  induction w as [|c w IH]; simpl; intros H.
  - reflexivity.
  - apply andb_true_iff in H as [Hc Hw]. apply negb_true_iff in Hc. rewrite Hc, (IH Hw).
    reflexivity.
Qed.

Lemma split_space_none w : no_space w = true -> split_space w = [w].
Proof.
  induction w as [|c w IH]; simpl; intros H; [reflexivity|].
  apply andb_true_iff in H as [Hc Hw]. apply negb_true_iff in Hc. rewrite Hc, (IH Hw).
  reflexivity.
Qed.

(** authenticateToken takes the token from the second space-separated field
    of the Authorization header, without looking at the first (the scheme):
    an empty field answers 401, otherwise verifyToken decides between
    passing the user on and 403. *)
Theorem authenticateToken_second_field verifyToken w t rest :
  no_space w = true -> no_space t = true ->
  (rest = EmptyString \/ exists r, rest = String space r) ->
  authenticateToken verifyToken (Some (w ++ String space (t ++ rest))%string) =
    if String.eqb t EmptyString
    then AuthReject (mkResponse 401 (BMessage "Access token required"))
    else match verifyToken t with
         | Some user => AuthNext user
         | None => AuthReject (mkResponse 403 (BMessage "Invalid or expired token"))
         end.
Proof.
  intros Hw Ht Hr. unfold authenticateToken.
  assert (Hh : truthy_string (w ++ String space (t ++ rest))%string = true).
  { destruct w; reflexivity. }
  rewrite Hh, (split_space_word _ _ Hw).
  assert (E : nth_error (w :: split_space (t ++ rest)%string) 1 = Some t).
  { destruct Hr as [->|[r ->]].
    - rewrite append_empty_r, (split_space_none _ Ht). reflexivity.
    - rewrite (split_space_word _ _ Ht). reflexivity. }
  rewrite E. unfold truthy_string.
  destruct (String.eqb t EmptyString); reflexivity.
Qed.

(** authenticateToken answers 401 ["Access token required"] when there is no
    Authorization header or when it contains no space. *)
Theorem authenticateToken_requires_token verifyToken h :
  (h = None \/ exists w, h = Some w /\ no_space w = true) ->
  authenticateToken verifyToken h = AuthReject (mkResponse 401 (BMessage "Access token required")).
Proof.
  intros [->|[w [-> Hw]]]; [reflexivity|]. unfold authenticateToken.
  destruct (truthy_string w) eqn:Ew.
  - rewrite (split_space_none _ Hw). reflexivity.
  - rewrite Ew. reflexivity.
Qed.

(** * The dashboard *)

(** [prev.includes(tag) ? prev.filter(t => t !== tag) : [...prev, tag]] *)
Definition toggleFilter (tag : string) (prev : list string) : list string :=
  if existsb (String.eqb tag) prev then filter (fun t => negb (String.eqb t tag)) prev
  else prev ++ [tag].

(** The predicate of [documents.filter] in the dashboard. *)
Definition tag_filter (selectedFilters : list string) (doc : DocumentWithUser) : bool :=
  match selectedFilters with
  | [] => true
  | _ => existsb (fun filter => match dw_tags doc with
                                | Some tags => existsb (String.eqb filter) tags
                                | None => false
                                end) selectedFilters
  end.

(** [filteredDocuments] under [sortBy = "recent"]: [new Date(updatedAt)]
    gives back the millisecond time the server serialised. *)
Definition filteredDocuments_recent (selectedFilters : list string)
  (documents : list DocumentWithUser) : list DocumentWithUser :=
  sort_desc dw_updatedAt (filter (tag_filter selectedFilters) documents).


Lemma insert_desc_last {A} (key : A -> Z) x acc :
  Forall (fun y => (key x <= key y)%Z) acc -> insert_desc key x acc = acc ++ [x].
Proof.
  induction acc as [|y t IH]; simpl; intros H; [reflexivity|].
  inversion H as [|? ? Hy Ht]; subst. apply Z.leb_le in Hy. rewrite Hy, (IH Ht). reflexivity.
Qed.

Lemma sort_desc_sorted_id {A} (key : A -> Z) l :
  StronglySorted (desc key) l -> sort_desc key l = l.
Proof.
  unfold sort_desc.
  assert (G : forall acc, StronglySorted (desc key) (acc ++ l) ->
            fold_left (fun acc x => insert_desc key x acc) l acc = acc ++ l).
  { induction l as [|x t IH]; intros acc H; simpl; [rewrite app_nil_r; reflexivity|].
    rewrite insert_desc_last.
    - rewrite IH; rewrite <- app_assoc; [reflexivity|exact H].
    - apply Forall_forall. intros y Hy.
      exact (sorted_app_desc key acc (x :: t) y x H Hy (or_introl eq_refl)). }
  exact (G []).
Qed.

(** With the "recent" ordering, the dashboard shows the documents that pass
    the tag filter in the order getDocuments returned them: re-sorting by
    [updatedAt] changes nothing. *)
Theorem dashboard_recent_keeps_server_order sel s :
  filteredDocuments_recent sel (fst (getDocuments s)) =
  filter (tag_filter sel) (fst (getDocuments s)).
Proof.
  unfold filteredDocuments_recent. apply sort_desc_sorted_id.
  apply StronglySorted_filter, sort_desc_sorted.
Qed.

(** toggleFilter flips the selection of the tag and no other, keeps the
    selection free of duplicates, and toggling an unselected tag twice gives
    back the selection. *)
Theorem toggleFilter_flips tag prev :
  NoDup prev ->
  NoDup (toggleFilter tag prev) /\
  (In tag (toggleFilter tag prev) <-> ~ In tag prev) /\
  (forall t, t <> tag -> (In t (toggleFilter tag prev) <-> In t prev)) /\
  (~ In tag prev -> toggleFilter tag (toggleFilter tag prev) = prev).
Proof.
  intros Hnd. unfold toggleFilter.
  assert (Ex : forall l, existsb (String.eqb tag) l = true <-> In tag l).
  { intros l. rewrite existsb_exists. split.
    - intros [x [Hx E]]. apply String.eqb_eq in E. subst x. exact Hx.
    - intros H. exists tag. split; [exact H|apply String.eqb_refl]. }
  destruct (existsb (String.eqb tag) prev) eqn:E.
  - apply Ex in E. split; [apply NoDup_filter, Hnd|]. split; [|split].
    + rewrite filter_In. split; [intros [_ H]; rewrite String.eqb_refl in H; discriminate H|].
      intros H; contradiction.
    + intros t Ht. rewrite filter_In. apply String.eqb_neq in Ht. rewrite Ht. simpl.
      split; [intros [H _]; exact H|intros H; split; [exact H|reflexivity]].
    + intros H; contradiction.
  - assert (Hn : ~ In tag prev) by (intros H; apply Ex in H; congruence).
    split; [|split; [|split]].
    + apply Permutation_NoDup with (l := tag :: prev); [apply Permutation_cons_append|].
      constructor; assumption.
    + split; [intros _; exact Hn|intros _; apply in_or_app; right; left; reflexivity].
    + intros t Ht. rewrite in_app_iff. simpl.
      split; [intros [H|[H|[]]]; [exact H|congruence]|intros H; left; exact H].
    + intros _. assert (E2 : existsb (String.eqb tag) (prev ++ [tag]) = true).
      { apply Ex, in_or_app. right; left; reflexivity. }
      rewrite E2, filter_app. simpl. rewrite String.eqb_refl. simpl. rewrite app_nil_r.
      clear E Hnd E2. induction prev as [|x t IH]; simpl; [reflexivity|].
      assert (Hx : x <> tag) by (intros ->; apply Hn; left; reflexivity).
      apply String.eqb_neq in Hx. rewrite Hx. simpl. f_equal.
      apply IH. intros H; apply Hn; right; exact H.
Qed.

(** [Array.from(new Set(xs))]: first occurrences, in order. *)
Definition set_from (xs : list string) : list string :=
  fold_left (fun acc x => if existsb (String.eqb x) acc then acc else acc ++ [x]) xs [].

(** [allTags]: [documents.flatMap(doc => doc.tags || [])] without repeats. *)
Definition allTags (documents : list DocumentWithUser) : list string :=
  set_from (flat_map (fun doc => match dw_tags doc with
                                 | Some tags => tags
                                 | None => []
                                 end) documents).

Lemma set_from_acc xs acc :
  NoDup acc ->
  NoDup (fold_left (fun acc x => if existsb (String.eqb x) acc then acc else acc ++ [x]) xs acc) /\
  forall t, In t (fold_left (fun acc x => if existsb (String.eqb x) acc then acc else acc ++ [x]) xs acc)
            <-> In t acc \/ In t xs.
Proof.
  revert acc; induction xs as [|x t IH]; intros acc Hacc; simpl.
  - split; [exact Hacc|]. intros y; split; [intros H; left; exact H|intros [H|[]]; exact H].
  - destruct (existsb (String.eqb x) acc) eqn:E.
    + destruct (IH acc Hacc) as [Hn Hi]. split; [exact Hn|]. intros y. rewrite Hi.
      apply existsb_exists in E as [z [Hz Ez]]. apply String.eqb_eq in Ez. subst z.
      split; [intros [H|H]; [left|right; right]; exact H|].
      intros [H|[<-|H]]; [left; exact H|left; exact Hz|right; exact H].
    + assert (Hx : ~ In x acc).
      { intros H. assert (existsb (String.eqb x) acc = true)
          by (apply existsb_exists; exists x; split; [exact H|apply String.eqb_refl]).
        congruence. }
      assert (Hacc' : NoDup (acc ++ [x])).
      { apply Permutation_NoDup with (l := x :: acc); [apply Permutation_cons_append|].
        constructor; assumption. }
      destruct (IH _ Hacc') as [Hn Hi]. split; [exact Hn|]. intros y. rewrite Hi, in_app_iff.
      simpl. split.
      * intros [[H|[<-|[]]]|H]; [left; exact H|right; left; reflexivity|right; right; exact H].
      * intros [H|[<-|H]]; [left; left; exact H|left; right; left; reflexivity|right; exact H].
Qed.

(** The dashboard's tag list names each tag of some document exactly once,
    and no other string. *)
Theorem allTags_distinct docs :
  NoDup (allTags docs) /\
  forall t, In t (allTags docs) <->
            exists d tags, In d docs /\ dw_tags d = Some tags /\ In t tags.
Proof.
  destruct (set_from_acc (flat_map (fun doc => match dw_tags doc with
                                               | Some tags => tags
                                               | None => []
                                               end) docs) [] (NoDup_nil _)) as [Hn Hi].
  split; [exact Hn|]. intros t. unfold allTags, set_from. rewrite Hi, in_flat_map. simpl.
  split.
  - intros [[]|[d [Hd Ht]]]. destruct (dw_tags d) as [tags|] eqn:E; [|destruct Ht].
    exists d, tags. repeat split; assumption.
  - intros [d [tags [Hd [E Ht]]]]. right. exists d. rewrite E. split; assumption.
Qed.

(** ** Concrete inputs of the further statements *)

Definition eve : AuthUser := mkAuthUser 5 "eve@example.com" "Eve" "user".
Definition alice_session : AuthUser := mkAuthUser 0 "alice@example.com" "Alice" "user".
Definition root_session : AuthUser := mkAuthUser 9 "root@example.com" "Root" "admin".
Definition root_signup : InsertUser :=
  mkInsertUser "root@example.com" "hunter22" "Root" (Some "admin").
(** Alice creates two documents, ids 1 and 4. *)
Definition two_docs : Store :=
  run_ops [OpCreateUser alice; OpCreateDocument onboarding 0; OpCreateDocument onboarding 0]
          (init 0%Z).
(** A document created under an id with no user record. *)
Definition orphan_store : Store := run_ops [OpCreateDocument onboarding 7] (init 0%Z).

(** ** Witnesses *)

Lemma createDocument_then_getDocument_witness :
  let s0 := run_ops [OpCreateUser alice] (init 0%Z) in
  versions_inv s0 /\
  exists u row, JSMap.get (users s0) 0 = Some u /\
    fst (getDocument 1 (snd (createDocument onboarding 0 s0))) =
    Some (mkDocumentWithDetails (with_user (fst (createDocument onboarding 0 s0)) u) [row]).
Proof.
  intros s0.
  assert (Hi : versions_inv s0) by exact (versions_inv_createUser alice _ (versions_inv_init 0%Z)).
  split; [exact Hi|]. eexists.
  destruct (createDocument_then_getDocument onboarding 0 s0 _ Hi eq_refl) as [row [H _]].
  exists row. split; [reflexivity|exact H].
Defined.

Lemma createDocumentVersion_effect_witness :
  fresh_ok after_create /\
  ver_summary (fst (createDocumentVersion
    (mkInsertDocumentVersion 1 "T" "C" (Some (Some EmptyString)) None 2 0 None) after_create)) = None.
Proof.
  assert (Hf : fresh_ok after_create) by (vm_compute; repeat constructor).
  split; [exact Hf|].
  destruct (createDocumentVersion_effect
    (mkInsertDocumentVersion 1 "T" "C" (Some (Some EmptyString)) None 2 0 None) after_create Hf)
    as (_ & _ & H & _).
  apply H. right; right; reflexivity.
Defined.

Lemma updateDocument_frame_witness :
  fresh_ok two_docs /\ 1 <> 4 /\
  JSMap.get (documents (snd (updateDocument 4 retitle 0 two_docs))) 1 =
  JSMap.get (documents two_docs) 1.
Proof.
  assert (Hf : fresh_ok two_docs) by (vm_compute; repeat constructor).
  split; [exact Hf|]. split; [lia|].
  exact (proj1 (updateDocument_frame 4 retitle 0 two_docs 1 Hf ltac:(lia))).
Defined.

Lemma register_existing_email_witness :
  let u := mkUser 0 "alice@example.com" "secret1" "Alice" "user" 0%Z 0%Z in
  In u (JSMap.values (users after_create)) /\ user_email u = iu_email alice /\
  register (fun _ => "token") (Some alice) "hash" after_create =
    (mkResponse 400 (BMessage "User already exists"), after_create).
Proof.
  intros u. assert (Hin : In u (JSMap.values (users after_create))) by (vm_compute; left; reflexivity).
  split; [exact Hin|]. split; [reflexivity|].
  exact (register_existing_email _ alice "hash" after_create u Hin eq_refl).
Defined.

Lemma register_new_email_witness :
  fresh_ok (init 0%Z) /\
  user_role (fst (createUser (mkInsertUser "root@example.com" "hash" "Root" (Some "admin"))
                             (init 0%Z))) = "admin".
Proof.
  assert (Hf : fresh_ok (init 0%Z)) by (vm_compute; repeat constructor).
  split; [exact Hf|].
  destruct (register_new_email (fun _ => "token") root_signup "hash" (init 0%Z) Hf
              (fun u H => match H with end)) as (_ & _ & _ & _ & Hr & _).
  apply (Hr "admin" eq_refl). discriminate.
Defined.


Lemma modify_routes_deny_others_witness :
  put_document_route eve 1 (Some retitle) after_create =
    (mkResponse 403 (BMessage "Permission denied"), after_create).
Proof.
  refine (proj1 (modify_routes_deny_others eve 1 (Some retitle) after_create _ _
                   eq_refl eq_refl _ _)); simpl; discriminate.
Defined.

Lemma orphan_document_routes_not_found_witness :
  delete_document_route root_session 0 orphan_store =
    (mkResponse 404 (BMessage "Document not found"), orphan_store).
Proof.
  exact (proj2 (proj2 (orphan_document_routes_not_found root_session 0 None orphan_store _
                         eq_refl eq_refl))).
Defined.

Lemma put_route_allowed_witness :
  put_document_route alice_session 1 None after_create =
    (mkResponse 400 (BInvalid "Invalid input"), after_create).
Proof.
  exact (proj2 (put_route_allowed alice_session 1 retitle after_create _ _
                  eq_refl eq_refl (or_introl eq_refl))).
Defined.

Lemma delete_route_allowed_witness :
  delete_document_route root_session 1 after_create =
    (mkResponse 200 (BMessage "Document deleted successfully"), snd (deleteDocument 1 after_create)).
Proof.
  exact (proj1 (delete_route_allowed root_session 1 after_create _ _
                  eq_refl eq_refl (or_intror eq_refl))).
Defined.

Lemma search_route_requires_query_witness :
  search_route QOther (QString "semantic") AIFailed after_create =
    (mkResponse 400 (BMessage "Query parameter required"), after_create).
Proof. exact (search_route_requires_query _ _ _ _ (or_intror (or_introl eq_refl))). Defined.

Lemma search_route_text_unless_semantic_witness :
  search_route (QString "welcome") QAbsent AIFailed after_create =
    (mkResponse 200 (BDocs (fst (searchDocuments "welcome" after_create))), after_create).
Proof. exact (search_route_text_unless_semantic "welcome" QAbsent AIFailed after_create
                eq_refl ltac:(discriminate)). Defined.

Lemma authenticateToken_second_field_witness :
  no_space "Token" = true /\ no_space "abc" = true /\
  authenticateToken (fun t => if String.eqb t "abc" then Some alice_session else None)
    (Some "Token abc") = AuthNext alice_session.
Proof.
  split; [reflexivity|]. split; [reflexivity|].
  exact (authenticateToken_second_field
           (fun t => if String.eqb t "abc" then Some alice_session else None)
           "Token" "abc" EmptyString eq_refl eq_refl (or_introl eq_refl)).
Defined.

Lemma authenticateToken_requires_token_witness :
  no_space "Bearer" = true /\
  authenticateToken (fun _ => Some alice_session) (Some "Bearer") =
    AuthReject (mkResponse 401 (BMessage "Access token required")).
Proof.
  split; [reflexivity|].
  exact (authenticateToken_requires_token _ (Some "Bearer")
           (or_intror (ex_intro _ "Bearer" (conj eq_refl eq_refl)))).
Defined.

Lemma toggleFilter_flips_witness :
  NoDup ["ai"] /\ toggleFilter "docs" (toggleFilter "docs" ["ai"]) = ["ai"].
Proof.
  assert (H : NoDup ["ai"]) by (repeat constructor; simpl; tauto).
  split; [exact H|].
  destruct (toggleFilter_flips "docs" ["ai"] H) as (_ & _ & _ & E).
  apply E. simpl. intros [E1|[]]. discriminate E1.
Defined.
